(** * A shallow embedding of [main.go]

    The program fetches an article over HTTP, wraps a prompt in the
    Human/Assistant template, marshals a [Request] to JSON, invokes a hosted
    model and prints the completion.  Go strings are byte sequences; they are
    modelled by [string] (a list of 8-bit [ascii]).  Calls that leave the
    process (HTTP, the inference endpoint, callbacks, standard output,
    [log.Fatal]) are recorded in a trace and answered by an environment. *)

From Stdlib Require Import ZArith String Ascii List Bool Lia.
From Stdlib Require Import DecimalString.
From Stdlib Require DecimalFacts DecimalPos.
From Stdlib Require Import Floats.
Import ListNotations.

Set Warnings "-register-all".

Local Open Scope string_scope.
Local Open Scope Z_scope.

(** ** Bytes and strings *)

Definition byte_val (c : ascii) : Z := Z.of_N (N_of_ascii c).

Definition byte_of (z : Z) : ascii := ascii_of_N (Z.to_N z).

(** The newline byte: Rocq string literals have no escape sequences. *)
Definition LF : ascii := "010"%char.
Definition nl : string := String LF EmptyString.
Definition dquote : ascii := "034"%char.
Definition backslash : ascii := "092"%char.

Definition join (sep : string) (l : list string) : string :=
  String.concat sep l.

(** ** Constants of [main.go] *)

(** [format = "\n\nHuman:%s\n\nAssistant:"] *)
Definition format : string :=
  nl ++ nl ++ "Human:%s" ++ nl ++ nl ++ "Assistant:".

Definition modelID : string := "anthropic.claude-v2".

Definition prompt : string :=
  "Give me a summary with maximum of 150 words. Add 3 hashtags at the end to publish on Twitter.".

Definition article_link : string :=
  "https://medium.com/@spei/ai-without-machine-learning-47e90e5ae7c5".

(** ** [fmt.Sprintf] on string operands

    The fragment of Go's formatter the program relies on: the verbs [%s] and
    [%v] print a string operand byte for byte, [%%] prints a percent sign, a
    verb without an operand prints [%!v(MISSING)], a trailing [%] prints
    [%!(NOVERB)], any other verb character [c] applied to a string prints
    [%!c(string=...)], and operands left over are reported in a trailing
    [%!(EXTRA ...)].  Flags, widths and the verbs [%q], [%x], [%X] do not
    occur in [format]. *)

Fixpoint Sprintf_go (f : string) (args : list string) : string * list string :=
  match f with
  | EmptyString => (EmptyString, args)
  | String c rest =>
      if Ascii.eqb c "%"%char then
        match rest with
        | EmptyString => ("%!(NOVERB)", args)
        | String v rest' =>
            if Ascii.eqb v "%"%char then
              let (out, left) := Sprintf_go rest' args in
              (String "%"%char out, left)
            else
              match args with
              | [] =>
                  let (out, left) := Sprintf_go rest' [] in
                  ("%!" ++ String v "(MISSING)" ++ out, left)
              | a :: args' =>
                  let (out, left) := Sprintf_go rest' args' in
                  if Ascii.eqb v "s"%char || Ascii.eqb v "v"%char
                  then (a ++ out, left)
                  else ("%!" ++ String v "(string=" ++ a ++ ")" ++ out, left)
              end
        end
      else
        let (out, left) := Sprintf_go rest args in
        (String c out, left)
  end.

Definition Sprintf (f : string) (args : list string) : string :=
  let (out, left) := Sprintf_go f args in
  match left with
  | [] => out
  | _ => out ++ "%!(EXTRA " ++ join ", " (map (fun a => "string=" ++ a) left) ++ ")"
  end.

(** The text the template is meant to produce for a prompt [x]. *)
Definition human_assistant (x : string) : string :=
  nl ++ nl ++ "Human:" ++ x ++ nl ++ nl ++ "Assistant:".

(** ** UTF-8 as Go's [unicode/utf8] decodes it *)

Definition RuneError : Z := 0xFFFD.

Definition in_range (lo hi b : Z) : bool := (lo <=? b) && (b <=? hi).

(** Continuation bytes are [0x80..0xBF]. *)
Definition is_cont (b : Z) : bool := in_range 0x80 0xBF b.

(** [first] and [acceptRanges] of [unicode/utf8]: for a leading byte, the
    length of the sequence and the range accepted for the second byte. *)
Definition accept (b0 : Z) : option (nat * Z * Z) :=
  if in_range 0xC2 0xDF b0 then Some (2%nat, 0x80, 0xBF)
  else if b0 =? 0xE0 then Some (3%nat, 0xA0, 0xBF)
  else if in_range 0xE1 0xEC b0 then Some (3%nat, 0x80, 0xBF)
  else if b0 =? 0xED then Some (3%nat, 0x80, 0x9F)
  else if in_range 0xEE 0xEF b0 then Some (3%nat, 0x80, 0xBF)
  else if b0 =? 0xF0 then Some (4%nat, 0x90, 0xBF)
  else if in_range 0xF1 0xF3 b0 then Some (4%nat, 0x80, 0xBF)
  else if b0 =? 0xF4 then Some (4%nat, 0x80, 0x8F)
  else None.

(** [utf8.DecodeRuneInString]: the first rune of [s] and its width in bytes;
    [(RuneError, 1)] for an encoding that is invalid or cut short, and
    [(RuneError, 0)] for the empty string.  The masks and shifts that
    assemble the rune are written as remainders and products. *)
Definition DecodeRuneInString (s : string) : Z * nat :=
  match s with
  | EmptyString => (RuneError, 0%nat)
  | String c0 t =>
      let b0 := byte_val c0 in
      if b0 <? 0x80 then (b0, 1%nat)
      else
        match accept b0, t with
        | Some (sz, lo, hi), String c1 t1 =>
            let b1 := byte_val c1 in
            if negb (in_range lo hi b1) then (RuneError, 1%nat)
            else if (sz =? 2)%nat then
              ((b0 mod 32) * 64 + b1 mod 64, 2%nat)
            else
              match t1 with
              | String c2 t2 =>
                  let b2 := byte_val c2 in
                  if negb (is_cont b2) then (RuneError, 1%nat)
                  else if (sz =? 3)%nat then
                    ((b0 mod 16) * 4096 + (b1 mod 64) * 64 + b2 mod 64, 3%nat)
                  else
                    match t2 with
                    | String c3 _ =>
                        let b3 := byte_val c3 in
                        if negb (is_cont b3) then (RuneError, 1%nat)
                        else
                          ((b0 mod 8) * 262144 + (b1 mod 64) * 4096
                           + (b2 mod 64) * 64 + b3 mod 64,
                           4%nat)
                    | EmptyString => (RuneError, 1%nat)
                    end
              | EmptyString => (RuneError, 1%nat)
              end
        | _, _ => (RuneError, 1%nat)
        end
  end.

Fixpoint take (n : nat) (s : string) : string :=
  match n, s with
  | S n', String c t => String c (take n' t)
  | _, _ => EmptyString
  end.

Fixpoint drop (n : nat) (s : string) : string :=
  match n, s with
  | S n', String _ t => drop n' t
  | _, _ => s
  end.

(** An undecodable byte: the decoder answers [(RuneError, 1)]. *)
Definition bad_rune (r : Z * nat) : bool :=
  (fst r =? RuneError) && (snd r =? 1)%nat.

(** [utf8.ValidString], as a walk over the string rune by rune; the fuel is
    the number of bytes left, and every step consumes at least one. *)
Fixpoint ValidString_go (fuel : nat) (s : string) : bool :=
  match fuel, s with
  | _, EmptyString => true
  | O, _ => true
  | S fuel', String _ _ =>
      let r := DecodeRuneInString s in
      if bad_rune r then false else ValidString_go fuel' (drop (snd r) s)
  end.

Definition ValidString (s : string) : bool :=
  ValidString_go (String.length s) s.

(** The three bytes of U+FFFD in UTF-8. *)
Definition replacement : string :=
  String (byte_of 0xEF) (String (byte_of 0xBF) (String (byte_of 0xBD) EmptyString)).

(** The text a Go string denotes once coerced to valid UTF-8: every
    undecodable byte becomes U+FFFD ([strings.ToValidUTF8] applied byte by
    byte, which is what [encoding/json] does to string values). *)
Fixpoint coerce_go (fuel : nat) (s : string) : string :=
  match fuel, s with
  | _, EmptyString => EmptyString
  | O, _ => EmptyString
  | S fuel', String _ t =>
      let r := DecodeRuneInString s in
      if bad_rune r then replacement ++ coerce_go fuel' t
      else take (snd r) s ++ coerce_go fuel' (drop (snd r) s)
  end.

Definition coerce_utf8 (s : string) : string :=
  coerce_go (String.length s) s.

(** Every byte is outside ASCII. *)
Fixpoint high_bytes (s : string) : bool :=
  match s with
  | EmptyString => true
  | String c t => (0x80 <=? byte_val c) && high_bytes t
  end.

(** ** [encoding/json]: string literals *)

Definition hex_digit (n : Z) : ascii :=
  if n <? 10 then byte_of (48 + n) else byte_of (87 + n).

(** [htmlSafeSet]: the ASCII bytes copied unescaped when HTML escaping is on
    (the default of [json.Marshal]). *)
Definition htmlSafe (b : Z) : bool :=
  (0x20 <=? b) && (b <? 0x80) && negb (b =? 0x22) && negb (b =? 0x5C)
  && negb (b =? 0x3C) && negb (b =? 0x3E) && negb (b =? 0x26).

(** The escape written for an ASCII byte outside [htmlSafeSet]. *)
Definition escape_ascii (c : ascii) : string :=
  let b := byte_val c in
  if (b =? 0x5C) || (b =? 0x22) then String backslash (String c EmptyString)
  else if b =? 0x08 then String backslash "b"
  else if b =? 0x0C then String backslash "f"
  else if b =? 0x0A then String backslash "n"
  else if b =? 0x0D then String backslash "r"
  else if b =? 0x09 then String backslash "t"
  else String backslash
         (String "u" (String "0" (String "0"
            (String (hex_digit (Z.shiftr b 4))
               (String (hex_digit (Z.land b 0xF)) EmptyString))))).

(** The body of the loop of [appendString]: one rune per step. *)
Fixpoint appendString_go (fuel : nat) (s : string) : string :=
  match fuel, s with
  | _, EmptyString => EmptyString
  | O, _ => EmptyString
  | S fuel', String c t =>
      let b := byte_val c in
      if b <? 0x80 then
        (if htmlSafe b then String c EmptyString else escape_ascii c)
        ++ appendString_go fuel' t
      else
        let r := DecodeRuneInString s in
        if bad_rune r then
          String backslash "ufffd" ++ appendString_go fuel' t
        else if (fst r =? 0x2028) || (fst r =? 0x2029) then
          String backslash "u202"
          ++ String (hex_digit (Z.land (fst r) 0xF)) EmptyString
          ++ appendString_go fuel' (drop (snd r) s)
        else take (snd r) s ++ appendString_go fuel' (drop (snd r) s)
  end.

(** A Go string as a JSON string literal, quotes included. *)
Definition appendString (s : string) : string :=
  String dquote (appendString_go (String.length s) s)
  ++ String dquote EmptyString.

(** ** Results and errors *)

Definition error := string.

Inductive result (A : Type) : Type :=
| Ok (a : A)
| Err (e : error).
Arguments Ok {A} a.
Arguments Err {A} e.

(** ** The data of [main.go] *)

Record Request := {
  Prompt : string;
  MaxTokensToSample : Z;
  Temperature : float;
  TopP : float;
  TopK : Z;
  StopSequences : list string
}.

Record Response := { Completion : string }.

(** [llms.CallOptions], the fields [Generate] reads. *)
Record CallOptions := {
  MaxTokens : Z;
  opt_Temperature : float;
  opt_TopK : Z;
  opt_TopP : float;
  StopWords : list string
}.

(** [&llms.CallOptions{}] *)
Definition zero_CallOptions : CallOptions :=
  {| MaxTokens := 0; opt_Temperature := 0%float; opt_TopK := 0;
     opt_TopP := 0%float; StopWords := [] |}.

(** A [llms.CallOption] is a function that updates the options in place. *)
Definition CallOption := CallOptions -> CallOptions.

Definition WithMaxTokens (n : Z) : CallOption :=
  fun o => {| MaxTokens := n; opt_Temperature := opt_Temperature o;
              opt_TopK := opt_TopK o; opt_TopP := opt_TopP o;
              StopWords := StopWords o |}.

Definition WithTemperature (t : float) : CallOption :=
  fun o => {| MaxTokens := MaxTokens o; opt_Temperature := t;
              opt_TopK := opt_TopK o; opt_TopP := opt_TopP o;
              StopWords := StopWords o |}.

Definition WithTopK (k : Z) : CallOption :=
  fun o => {| MaxTokens := MaxTokens o; opt_Temperature := opt_Temperature o;
              opt_TopK := k; opt_TopP := opt_TopP o;
              StopWords := StopWords o |}.

Definition WithTopP (p : float) : CallOption :=
  fun o => {| MaxTokens := MaxTokens o; opt_Temperature := opt_Temperature o;
              opt_TopK := opt_TopK o; opt_TopP := p;
              StopWords := StopWords o |}.

Definition WithStopWords (l : list string) : CallOption :=
  fun o => {| MaxTokens := MaxTokens o; opt_Temperature := opt_Temperature o;
              opt_TopK := opt_TopK o; opt_TopP := opt_TopP o;
              StopWords := l |}.

(** [for _, opt := range options { opt(opts) }] *)
Definition apply_options (options : list CallOption) : CallOptions :=
  fold_left (fun o opt => opt o) options zero_CallOptions.

Record Generation := { Text : string }.

Record LLMResult := { Generations : list (list Generation) }.

Record Document := {
  PageContent : string;
  Metadata : list (string * string)
}.

(** ** [encoding/json]: marshalling a struct *)

(** The Go values found in the fields of [Request]. *)
Inductive GoValue :=
| VString (s : string)
| VInt (n : Z)
| VFloat (f : float)
| VStrings (l : list string).

(** [isEmptyValue]: what the [omitempty] tag option tests. *)
Definition isEmptyValue (v : GoValue) : bool :=
  match v with
  | VString s => (String.length s =? 0)%nat
  | VInt n => n =? 0
  | VFloat f => PrimFloat.eqb f 0%float
  | VStrings l => (List.length l =? 0)%nat
  end.

Record Field := {
  name : string;
  omitEmpty : bool;
  value : GoValue
}.

(** The fields of [Request] with their [json] tags, in declaration order. *)
Definition Request_fields (r : Request) : list Field :=
  [ {| name := "prompt"; omitEmpty := false; value := VString (Prompt r) |};
    {| name := "max_tokens_to_sample"; omitEmpty := false;
       value := VInt (MaxTokensToSample r) |};
    {| name := "temperature"; omitEmpty := true; value := VFloat (Temperature r) |};
    {| name := "top_p"; omitEmpty := true; value := VFloat (TopP r) |};
    {| name := "top_k"; omitEmpty := true; value := VInt (TopK r) |};
    {| name := "stop_sequences"; omitEmpty := true;
       value := VStrings (StopSequences r) |} ].

(** The struct encoder skips a field tagged [omitempty] whose value is empty. *)
Definition encoded_fields (r : Request) : list Field :=
  filter (fun f => negb (omitEmpty f && isEmptyValue (value f)))
         (Request_fields r).

Definition Itoa (n : Z) : string := NilZero.string_of_int (Z.to_int n).

(** All results of a list, or the first error. *)
Fixpoint sequence {A} (l : list (result A)) : result (list A) :=
  match l with
  | [] => Ok []
  | Ok a :: l' =>
      match sequence l' with
      | Ok l'' => Ok (a :: l'')
      | Err e => Err e
      end
  | Err e :: _ => Err e
  end.

(** ** The world outside the process *)

(** [aws.Config] and [*bedrockruntime.Client] are opaque to the program. *)
Inductive Config := mkConfig (region : string).

Record Client := { client_config : Config }.

Definition NewFromConfig (cfg : Config) : Client := {| client_config := cfg |}.

(** A [callbacks.Handler] is known by its identity; what it does with a
    notification is outside the program. *)
Definition Handler := nat.

Record InvokeModelInput := {
  Body : string;
  ModelId : string;
  ContentType : string
}.

Record HttpResponse := {
  StatusCode : Z;
  resp_Body : string
}.

(** Every interaction with the outside, with the answer received. *)
Inductive Event :=
| EvLoadDefaultConfig (ans : result Config)
| EvHandleLLMStart (h : Handler) (prompts : list string)
| EvHandleLLMEnd (h : Handler) (res : LLMResult)
| EvInvokeModel (c : Client) (input : InvokeModelInput) (ans : result string)
| EvHttpGet (link : string) (ans : result HttpResponse)
| EvHTMLLoad (body : string) (ans : result (list Document))
| EvBodyClose
| EvStdout (s : string)
| EvLogFatal (msg : string).

Definition Trace := list Event.

(** The environment answers each call from the history so far, so that an
    endpoint may answer the same request differently at different times. *)
Record Env := {
  config_LoadDefaultConfig : Trace -> result Config;
  bedrock_InvokeModel : Trace -> Client -> InvokeModelInput -> result string;
  http_Get : Trace -> string -> result HttpResponse;
  html_Load : string -> result (list Document)
}.

(** How a Go function call ends: it returns, it panics, or the process exits
    ([log.Fatal] calls [os.Exit(1)]). *)
Inductive Outcome (A : Type) : Type :=
| Returned (a : A)
| Panicked (msg : string)
| Exited (code : Z).
Arguments Returned {A} a.
Arguments Panicked {A} msg.
Arguments Exited {A} code.

(** A computation is run after a history and yields its outcome together
    with the events it added, oldest first. *)
Definition M (A : Type) : Type := Trace -> Outcome A * Trace.

Definition ret {A} (a : A) : M A := fun _ => (Returned a, []).

Definition bind {A B} (m : M A) (k : A -> M B) : M B :=
  fun h =>
    match m h with
    | (Returned a, es) =>
        let (o, es') := k a (h ++ es)%list in (o, (es ++ es')%list)
    | (Panicked msg, es) => (Panicked msg, es)
    | (Exited c, es) => (Exited c, es)
    end.

Declare Scope go_scope.
Delimit Scope go_scope with go.
Notation "x <- c1 ;; c2" := (bind c1 (fun x => c2))
  (at level 100, c1 at next level, right associativity) : go_scope.
Notation "c1 ;; c2" := (bind c1 (fun _ => c2))
  (at level 100, right associativity) : go_scope.
Local Open Scope go_scope.

Definition emit (e : Event) : M unit := fun _ => (Returned tt, [e]).

(** A call answered by the environment, recorded with its answer. *)
Definition call {A} (oracle : Trace -> A) (ev : A -> Event) : M A :=
  fun h => let a := oracle h in (Returned a, [ev a]).

Definition panic {A} (msg : string) : M A := fun _ => (Panicked msg, []).

(** [log.Fatal(err)]: the message goes to the standard error log and the
    process exits with status 1; deferred calls do not run. *)
Definition log_Fatal {A} (err : error) : M A :=
  fun _ => (Exited 1, [EvLogFatal err]).

(** [fmt.Println]: operands separated by spaces, then a newline, on standard
    output. *)
Definition Println (operands : list string) : M unit :=
  emit (EvStdout (join " " operands ++ nl)).

(** [defer cleanup] in front of [body]: the cleanup runs when the body
    returns or panics, and not when the process exits. *)
Definition defer {A} (cleanup : M unit) (body : M A) : M A :=
  fun h =>
    match body h with
    | (Exited c, es) => (Exited c, es)
    | (o, es) => (o, (es ++ snd (cleanup (h ++ es)))%list)
    end.

Definition outcome {A} (r : Outcome A * Trace) : Outcome A := fst r.
Definition events {A} (r : Outcome A * Trace) : Trace := snd r.

(** What was written to standard output, in order. *)
Fixpoint stdout (t : Trace) : list string :=
  match t with
  | [] => []
  | EvStdout s :: t' => s :: stdout t'
  | _ :: t' => stdout t'
  end.

Record Model := {
  CallbacksHandler : option Handler;
  bedrock : Client;
  useHumanAssistantPrompt : bool;
  m_modelID : string
}.

(** The value of [map[string]any] entries the orchestrator looks at. *)
Inductive any :=
| any_string (s : string)
| any_other.

Fixpoint lookup {V} (k : string) (m : list (string * V)) : option V :=
  match m with
  | [] => None
  | (k', v) :: m' => if String.eqb k k' then Some v else lookup k m'
  end.

(** ** [encoding/json]: reading a JSON text *)

(** A JSON value; a number keeps its literal text. *)
Inductive JSON :=
| JNull
| JBool (b : bool)
| JNumber (lit : string)
| JString (s : string)
| JArray (elems : list JSON)
| JObject (members : list (string * JSON)).

Definition is_ws (c : ascii) : bool :=
  let b := byte_val c in (b =? 0x20) || (b =? 0x09) || (b =? 0x0A) || (b =? 0x0D).

Fixpoint skip_ws (s : string) : string :=
  match s with
  | String c t => if is_ws c then skip_ws t else s
  | EmptyString => s
  end.

Definition hex_val (c : ascii) : option Z :=
  let b := byte_val c in
  if in_range 48 57 b then Some (b - 48)
  else if in_range 97 102 b then Some (b - 87)
  else if in_range 65 70 b then Some (b - 55)
  else None.

(** Four hexadecimal digits in front of [s], as a number. *)
Definition hex4 (s : string) : option (Z * string) :=
  match s with
  | String h1 (String h2 (String h3 (String h4 t))) =>
      match hex_val h1, hex_val h2, hex_val h3, hex_val h4 with
      | Some a, Some b, Some c, Some d =>
          Some (((a * 16 + b) * 16 + c) * 16 + d, t)
      | _, _, _, _ => None
      end
  | _ => None
  end.

(** [utf8.AppendRune]: the UTF-8 bytes of a code point; surrogates and values
    out of range are written as U+FFFD. *)
Definition AppendRune (r : Z) : string :=
  if in_range 0 0x7F r then String (byte_of r) EmptyString
  else if in_range 0x80 0x7FF r then
    String (byte_of (0xC0 + r / 64))
      (String (byte_of (0x80 + r mod 64)) EmptyString)
  else if in_range 0xD800 0xDFFF r || negb (in_range 0 0x10FFFF r) then
    replacement
  else if r <=? 0xFFFF then
    String (byte_of (0xE0 + r / 4096))
      (String (byte_of (0x80 + (r / 64) mod 64))
         (String (byte_of (0x80 + r mod 64)) EmptyString))
  else
    String (byte_of (0xF0 + r / 262144))
      (String (byte_of (0x80 + (r / 4096) mod 64))
         (String (byte_of (0x80 + (r / 64) mod 64))
            (String (byte_of (0x80 + r mod 64)) EmptyString))).

(** A low surrogate escape [\uDC00..\uDFFF] in front of [s]. *)
Definition low_surrogate (s : string) : option (Z * string) :=
  match s with
  | String b (String u t) =>
      if Ascii.eqb b backslash && Ascii.eqb u "u"%char then
        match hex4 t with
        | Some (lo, t') =>
            if in_range 0xDC00 0xDFFF lo then Some (lo, t') else None
        | None => None
        end
      else None
  | _ => None
  end.

(** The inside of a string literal up to its closing quote, escapes
    replaced; the bytes are not yet coerced to UTF-8. *)
Fixpoint unquote_go (s : string) : option (string * string) :=
  match s with
  | EmptyString => None
  | String c t =>
      if Ascii.eqb c dquote then Some (EmptyString, t)
      else if Ascii.eqb c backslash then
        match t with
        | String e t' =>
            let simple (x : Z) :=
              match unquote_go t' with
              | Some (out, rest) => Some (String (byte_of x) out, rest)
              | None => None
              end in
            let b := byte_val e in
            if (b =? 0x22) || (b =? 0x5C) || (b =? 0x2F) then simple b
            else if Ascii.eqb e "b"%char then simple 0x08
            else if Ascii.eqb e "f"%char then simple 0x0C
            else if Ascii.eqb e "n"%char then simple 0x0A
            else if Ascii.eqb e "r"%char then simple 0x0D
            else if Ascii.eqb e "t"%char then simple 0x09
            else if Ascii.eqb e "u"%char then
              match t' with
              | String h1 (String h2 (String h3 (String h4 t4))) =>
                  match hex4 t' with
                  | Some (hi, _) =>
                      if in_range 0xD800 0xDBFF hi then
                        match low_surrogate t4, t4 with
                        | Some (lo, _),
                          String _ (String _ (String _ (String _ (String _ (String _ t10))))) =>
                            match unquote_go t10 with
                            | Some (out, rest) =>
                                Some (AppendRune
                                        (0x10000 + (hi - 0xD800) * 1024 + (lo - 0xDC00))
                                      ++ out, rest)
                            | None => None
                            end
                        | _, _ =>
                            match unquote_go t4 with
                            | Some (out, rest) => Some (replacement ++ out, rest)
                            | None => None
                            end
                        end
                      else
                        match unquote_go t4 with
                        | Some (out, rest) => Some (AppendRune hi ++ out, rest)
                        | None => None
                        end
                  | None => None
                  end
              | _ => None
              end
            else None
        | EmptyString => None
        end
      else if byte_val c <? 0x20 then None
      else
        match unquote_go t with
        | Some (out, rest) => Some (String c out, rest)
        | None => None
        end
  end.

(** A string literal in front of [s]: its value, coerced to valid UTF-8 as
    the decoder does, and what follows it. *)
Definition parse_string (s : string) : option (string * string) :=
  match s with
  | String q t =>
      if Ascii.eqb q dquote then
        match unquote_go t with
        | Some (out, rest) => Some (coerce_utf8 out, rest)
        | None => None
        end
      else None
  | EmptyString => None
  end.

Definition is_digit (c : ascii) : bool := in_range 48 57 (byte_val c).

(** The longest run of digits in front of [s]. *)
Fixpoint digits (s : string) : string * string :=
  match s with
  | String c t =>
      if is_digit c then let (d, rest) := digits t in (String c d, rest)
      else (EmptyString, s)
  | EmptyString => (EmptyString, s)
  end.

Definition strip_prefix (p s : string) : option string :=
  if String.prefix p s then Some (drop (String.length p) s) else None.

(** The integer part of a number: digits, without a leading zero unless
    the part is the single digit zero. *)
Definition scan_int (s : string) : option (string * string) :=
  let (d, rest) := digits s in
  match d with
  | EmptyString => None
  | String d0 more =>
      if Ascii.eqb d0 "0"%char && negb (String.length more =? 0)%nat then None
      else Some (d, rest)
  end.

(** An optional fraction: a point and at least one digit. *)
Definition scan_frac (s : string) : option (string * string) :=
  match s with
  | String c t =>
      if Ascii.eqb c "."%char then
        let (f, rest) := digits t in
        if (String.length f =? 0)%nat then None else Some (String c f, rest)
      else Some (EmptyString, s)
  | EmptyString => Some (EmptyString, s)
  end.

(** An optional exponent: [e] or [E], an optional sign, at least one
    digit. *)
Definition scan_exp (s : string) : option (string * string) :=
  match s with
  | String e t =>
      if Ascii.eqb e "e"%char || Ascii.eqb e "E"%char then
        let (sg, t') :=
          match t with
          | String g u =>
              if Ascii.eqb g "+"%char || Ascii.eqb g "-"%char
              then (String g EmptyString, u)
              else (EmptyString, t)
          | EmptyString => (EmptyString, t)
          end in
        let (x, rest) := digits t' in
        if (String.length x =? 0)%nat then None
        else Some (String e (sg ++ x), rest)
      else Some (EmptyString, s)
  | EmptyString => Some (EmptyString, s)
  end.

(** A number literal in front of [s]: an optional minus sign, an integer
    part, an optional fraction and an optional exponent. *)
Definition scan_number (s : string) : option (string * string) :=
  let (sign, s1) :=
    match s with
    | String c t =>
        if Ascii.eqb c "-"%char then (String c EmptyString, t)
        else (EmptyString, s)
    | EmptyString => (EmptyString, s)
    end in
  match scan_int s1 with
  | None => None
  | Some (int_part, s2) =>
      match scan_frac s2 with
      | None => None
      | Some (frac_part, s3) =>
          match scan_exp s3 with
          | None => None
          | Some (exp_part, s4) =>
              Some (sign ++ int_part ++ frac_part ++ exp_part, s4)
          end
      end
  end.

(** The byte [c] in front of [s], white space skipped. *)
Definition expect (c : ascii) (s : string) : option string :=
  match skip_ws s with
  | String c' t => if Ascii.eqb c' c then Some t else None
  | EmptyString => None
  end.

(** One JSON value in front of [s].  Every call consumes a byte before it
    recurses, so fuel above the length of the text is never used up. *)
Fixpoint parse_value (fuel : nat) (s : string) : option (JSON * string) :=
  match fuel with
  | O => None
  | S f =>
      match skip_ws s with
      | EmptyString => None
      | String c t as s' =>
          if Ascii.eqb c "{"%char then
            match expect "}"%char t with
            | Some t' => Some (JObject [], t')
            | None =>
                match parse_members f t with
                | Some (ms, rest) => Some (JObject ms, rest)
                | None => None
                end
            end
          else if Ascii.eqb c "["%char then
            match expect "]"%char t with
            | Some t' => Some (JArray [], t')
            | None =>
                match parse_elements f t with
                | Some (es, rest) => Some (JArray es, rest)
                | None => None
                end
            end
          else if Ascii.eqb c dquote then
            match parse_string s' with
            | Some (v, rest) => Some (JString v, rest)
            | None => None
            end
          else if Ascii.eqb c "t"%char then
            option_map (fun r => (JBool true, r)) (strip_prefix "true" s')
          else if Ascii.eqb c "f"%char then
            option_map (fun r => (JBool false, r)) (strip_prefix "false" s')
          else if Ascii.eqb c "n"%char then
            option_map (fun r => (JNull, r)) (strip_prefix "null" s')
          else
            match scan_number s' with
            | Some (lit, rest) => Some (JNumber lit, rest)
            | None => None
            end
      end
  end

with parse_members (fuel : nat) (s : string)
  : option (list (string * JSON) * string) :=
  match fuel with
  | O => None
  | S f =>
      match parse_string (skip_ws s) with
      | None => None
      | Some (k, s1) =>
          match expect ":"%char s1 with
          | None => None
          | Some s2 =>
              match parse_value f s2 with
              | None => None
              | Some (v, s3) =>
                  match expect ","%char s3 with
                  | Some s4 =>
                      match parse_members f s4 with
                      | Some (ms, rest) => Some ((k, v) :: ms, rest)
                      | None => None
                      end
                  | None =>
                      match expect "}"%char s3 with
                      | Some rest => Some ([(k, v)], rest)
                      | None => None
                      end
                  end
              end
          end
      end
  end

with parse_elements (fuel : nat) (s : string)
  : option (list JSON * string) :=
  match fuel with
  | O => None
  | S f =>
      match parse_value f s with
      | None => None
      | Some (v, s1) =>
          match expect ","%char s1 with
          | Some s2 =>
              match parse_elements f s2 with
              | Some (es, rest) => Some (v :: es, rest)
              | None => None
              end
          | None =>
              match expect "]"%char s1 with
              | Some rest => Some ([v], rest)
              | None => None
              end
          end
      end
  end.

(** The whole text as one JSON value, white space allowed around it. *)
Definition parse_json (data : string) : option JSON :=
  match parse_value (S (String.length data)) data with
  | Some (j, rest) =>
      match skip_ws rest with
      | EmptyString => Some j
      | _ => None
      end
  | None => None
  end.

Definition to_lower (c : ascii) : ascii :=
  let b := byte_val c in
  if in_range 65 90 b then byte_of (b + 32) else c.

Fixpoint lower (s : string) : string :=
  match s with
  | EmptyString => EmptyString
  | String c t => String (to_lower c) (lower t)
  end.

(** A key selects the field [completion] when it spells its name, letter
    case aside. *)
Definition is_completion_key (k : string) : bool :=
  String.eqb (lower k) "completion".

(** Decoding the members of an object into a [Response], in order: a string
    is stored, [null] is skipped, any other value is a type error, of which
    the first is remembered while decoding goes on. *)
Fixpoint decode_members (ms : list (string * JSON)) (resp : Response)
  (saved : option error) : Response * option error :=
  match ms with
  | [] => (resp, saved)
  | (k, v) :: ms' =>
      if is_completion_key k then
        match v with
        | JString s => decode_members ms' {| Completion := s |} saved
        | JNull => decode_members ms' resp saved
        | _ =>
            decode_members ms' resp
              (match saved with
               | Some e => Some e
               | None =>
                   Some "json: cannot unmarshal value into Go struct field Response.completion of type string"
               end)
        end
      else decode_members ms' resp saved
  end.

(** [json.Unmarshal(data, &resp)]: the updated [resp] and the error; the
    text of a syntax error is not reproduced. *)
Definition json_Unmarshal (data : string) (resp : Response)
  : Response * option error :=
  match parse_json data with
  | None => (resp, Some "json: syntax error")
  | Some (JObject ms) => decode_members ms resp None
  | Some JNull => (resp, None)
  | Some _ =>
      (resp, Some "json: cannot unmarshal value into Go value of type main.Response")
  end.

(** What ends a value inside an object or an array. *)
Definition is_stop (c : ascii) : bool :=
  Ascii.eqb c ","%char || Ascii.eqb c "}"%char || Ascii.eqb c "]"%char.

(** The JSON strings a list of Go strings is written as. *)
Definition JStrings (l : list string) : list JSON :=
  map (fun s => JString (coerce_utf8 s)) l.

(** Fuel that suffices to read back a value, and a list of members. *)
Definition value_fuel (v : GoValue) : nat :=
  match v with
  | VStrings l => (List.length l + 2)%nat
  | _ => 1%nat
  end.

Fixpoint members_fuel (fs : list Field) : nat :=
  match fs with
  | [] => 0%nat
  | f :: fs' => S (Nat.max (value_fuel (value f)) (members_fuel fs'))
  end.

(** ** The program *)

Section Program.

(** The answers of the outside world. *)
Variable E : Env.

(** The decimal text [encoding/json] prints for a finite [float64] (the
    shortest one that reads back as the same number); [main.go] does not
    depend on which text that is. *)
Variable FormatFloat : float -> string.

(** [chains.Call] on the chain [chains.LoadStuffQA(large)], of the
    orchestration library: given the model, the documents, the question and
    the call options, it runs the chain and returns its output map. *)
Variable chains_Call :
  Model -> list Document -> string -> list CallOption ->
  M (result (list (string * any))).

(** The encoder of a field value; a float that is not finite is refused. *)
Definition encode_value (v : GoValue) : result string :=
  match v with
  | VString s => Ok (appendString s)
  | VInt n => Ok (Itoa n)
  | VFloat f =>
      if PrimFloat.is_nan f then Err "json: unsupported value: NaN"
      else if PrimFloat.is_infinity f then
        Err (if PrimFloat.ltb f 0%float
             then "json: unsupported value: -Inf"
             else "json: unsupported value: +Inf")
      else Ok (FormatFloat f)
  | VStrings [] => Ok "null"
  | VStrings l => Ok ("[" ++ join "," (map appendString l) ++ "]")
  end.

Definition encode_field (f : Field) : result string :=
  match encode_value (value f) with
  | Ok v => Ok (appendString (name f) ++ ":" ++ v)
  | Err e => Err e
  end.

(** [json.Marshal(request)] *)
Definition json_Marshal (r : Request) : result string :=
  match sequence (map encode_field (encoded_fields r)) with
  | Ok parts => Ok ("{" ++ join "," parts ++ "}")
  | Err e => Err e
  end.

(** The float printer writes JSON number literals: its output, followed by
    the byte that ends a value, scans as a number. *)
Definition number_printer : Prop :=
  forall (f : float) (c : ascii) (t : string),
    PrimFloat.is_nan f = false -> PrimFloat.is_infinity f = false ->
    is_stop c = true ->
    scan_number (FormatFloat f ++ String c t)
    = Some (FormatFloat f, String c t).

(** The JSON value a field value is written as. *)
Definition denote_value (v : GoValue) : JSON :=
  match v with
  | VString s => JString (coerce_utf8 s)
  | VInt n => JNumber (Itoa n)
  | VFloat f => JNumber (FormatFloat f)
  | VStrings [] => JNull
  | VStrings l => JArray (JStrings l)
  end.

Definition denote_field (f : Field) : string * JSON :=
  (coerce_utf8 (name f), denote_value (value f)).

(** [(m *Model) getResponse] *)
Definition getResponse (m : Model) (payload : string) : M (result Response) :=
  let input := {| Body := payload; ModelId := m_modelID m;
                  ContentType := "application/json" |} in
  out <- call (fun t => bedrock_InvokeModel E t (bedrock m) input)
              (EvInvokeModel (bedrock m) input) ;;
  match out with
  | Err err => ret (Err err)
  | Ok body =>
      match json_Unmarshal body {| Completion := "" |} with
      | (_, Some err) => ret (Err err)
      | (resp, None) => ret (Ok resp)
      end
  end.

(** [prompts[0]] *)
Definition first_prompt (prompts : list string) : M string :=
  match prompts with
  | p :: _ => ret p
  | [] => panic "runtime error: index out of range [0] with length 0"
  end.

(** The request [Generate] builds from the first prompt and the options. *)
Definition build_request (p : string) (opts : CallOptions) : Request :=
  {| Prompt := Sprintf format [p];
     MaxTokensToSample := MaxTokens opts;
     Temperature := opt_Temperature opts;
     TopK := opt_TopK opts;
     TopP := opt_TopP opts;
     StopSequences := StopWords opts |}.

(** [(m *Model) Generate] *)
Definition Generate (m : Model) (prompts : list string)
  (options : list CallOption) : M (result (list Generation)) :=
  match CallbacksHandler m with
  | Some h => emit (EvHandleLLMStart h prompts)
  | None => ret tt
  end ;;
  let opts := apply_options options in
  p <- first_prompt prompts ;;
  let request := build_request p opts in
  match json_Marshal request with
  | Err err => ret (Err err)
  | Ok payload =>
      r <- getResponse m payload ;;
      match r with
      | Err err => ret (Err err)
      | Ok resp =>
          let generations := [ {| Text := Completion resp |} ] in
          match CallbacksHandler m with
          | Some h =>
              emit (EvHandleLLMEnd h {| Generations := [generations] |})
          | None => ret tt
          end ;;
          ret (Ok generations)
      end
  end.

(** The body of [(m *Model) Call], over the method it calls as
    [m.Generate]. *)
Definition Call_with
  (generate : list string -> list CallOption -> M (result (list Generation)))
  (prompt : string) (options : list CallOption) : M (result string) :=
  r <- generate [prompt] options ;;
  match r with
  | Err err => ret (Err err)
  | Ok [] => ret (Err "no response")
  | Ok (g :: _) => ret (Ok (Text g))
  end.

(** [(m *Model) Call] *)
Definition Call (m : Model) (prompt : string) (options : list CallOption)
  : M (result string) :=
  Call_with (Generate m) prompt options.

(** [getDocsFromLink] *)
Definition getDocsFromLink (link : string) : M (result (list Document)) :=
  Println ["loading data from"; link] ;;
  r <- call (fun t => http_Get E t link) (EvHttpGet link) ;;
  match r with
  | Err err => ret (Err err)
  | Ok resp =>
      defer (emit EvBodyClose)
        (d <- call (fun _ => html_Load E (resp_Body resp))
                   (EvHTMLLoad (resp_Body resp)) ;;
         match d with
         | Err err => log_Fatal err
         | Ok docs =>
             Println ["successfully loaded data from"; link] ;;
             ret (Ok docs)
         end)
  end.

(** [loadData] *)
Definition loadData (link : string) : M (list Document) :=
  r <- getDocsFromLink link ;;
  match r with
  | Err err => log_Fatal err
  | Ok docs => ret docs
  end.

(** [newLargeLanguageModel] *)
Definition newLargeLanguageModel : M Model :=
  r <- call (config_LoadDefaultConfig E) EvLoadDefaultConfig ;;
  match r with
  | Err err => log_Fatal err
  | Ok cfg =>
      ret {| CallbacksHandler := None;
             bedrock := NewFromConfig cfg;
             useHumanAssistantPrompt := true;
             m_modelID := modelID |}
  end.

(** [main]; the documents are loaded while the arguments of [chains.Call]
    are evaluated, and the temperature is the [float64] nearest to 0.1. *)
Definition main : M unit :=
  large <- newLargeLanguageModel ;;
  docs <- loadData article_link ;;
  r <- chains_Call large docs prompt
         [WithMaxTokens 500; WithTemperature 0x1.999999999999ap-4%float] ;;
  match r with
  | Err err => log_Fatal err
  | Ok answer =>
      match lookup "text" answer with
      | Some (any_string s) => Println [s]
      | _ => panic "interface conversion: interface {} is not string"
      end
  end.

End Program.

(** ** Observations on runs and payloads *)

Definition is_start (e : Event) : bool :=
  match e with EvHandleLLMStart _ _ => true | _ => false end.

Definition is_end (e : Event) : bool :=
  match e with EvHandleLLMEnd _ _ => true | _ => false end.

Definition is_invoke (e : Event) : bool :=
  match e with EvInvokeModel _ _ _ => true | _ => false end.

Definition is_close (e : Event) : bool :=
  match e with EvBodyClose => true | _ => false end.

Definition count (p : Event -> bool) (t : Trace) : nat :=
  List.length (filter p t).

(** A call that returned without an error. *)
Definition succeeded {A} (o : Outcome (result A)) : bool :=
  match o with
  | Returned (Ok _) => true
  | _ => false
  end.

(** An endpoint whose answer depends on the request alone. *)
Definition deterministic_endpoint (E : Env) : Prop :=
  forall t1 t2 c i, bedrock_InvokeModel E t1 c i = bedrock_InvokeModel E t2 c i.

(** The names of the members written for a request, in order. *)
Definition member_names (r : Request) : list string :=
  map name (encoded_fields r).

(** The value of the member [key] of a payload read as a JSON object. *)
Definition payload_field (payload key : string) : option JSON :=
  match parse_json payload with
  | Some (JObject ms) => lookup key ms
  | _ => None
  end.

(** The string value of the member [prompt] when the payload opens with it. *)
Definition leading_prompt (payload : string) : option string :=
  match strip_prefix ("{" ++ appendString "prompt" ++ ":") payload with
  | Some s => option_map fst (parse_string s)
  | None => None
  end.

(** The two lines the fetcher prints for a link. *)
Definition loading_line (link : string) : string :=
  "loading data from " ++ link ++ nl.

Definition loaded_line (link : string) : string :=
  "successfully loaded data from " ++ link ++ nl.

(** ** Mock collaborators for concrete runs *)

Definition quoted (s : string) : string :=
  String dquote s ++ String dquote EmptyString.

(** The body [{"completion":"hello"}]. *)
Definition hello_body : string :=
  "{" ++ quoted "completion" ++ ":" ++ quoted "hello" ++ "}".

Definition mock_client : Client := NewFromConfig (mkConfig "us-east-1").

Definition mock_docs : list Document :=
  [ {| PageContent := "AI without machine learning"; Metadata := [] |} ].

(** An environment whose endpoint always answers [hello_body] and whose
    article is served with status 200. *)
Definition mock_env : Env :=
  {| config_LoadDefaultConfig := fun _ => Ok (mkConfig "us-east-1");
     bedrock_InvokeModel := fun _ _ _ => Ok hello_body;
     http_Get := fun _ _ =>
       Ok {| StatusCode := 200; resp_Body := "<html>article</html>" |};
     html_Load := fun _ => Ok mock_docs |}.

(** The same article served with status 404. *)
Definition mock_env_404 : Env :=
  {| config_LoadDefaultConfig := fun _ => Ok (mkConfig "us-east-1");
     bedrock_InvokeModel := fun _ _ _ => Ok hello_body;
     http_Get := fun _ _ =>
       Ok {| StatusCode := 404; resp_Body := "<html>article</html>" |};
     html_Load := fun _ => Ok mock_docs |}.

(** An environment whose HTML loader fails. *)
Definition mock_env_bad_html : Env :=
  {| config_LoadDefaultConfig := fun _ => Ok (mkConfig "us-east-1");
     bedrock_InvokeModel := fun _ _ _ => Ok hello_body;
     http_Get := fun _ _ =>
       Ok {| StatusCode := 200; resp_Body := "<html" |};
     html_Load := fun _ => Err "unexpected EOF" |}.

(** A stand-in for the float printer, enough for runs without floats or with
    the temperature of [main]. *)
Definition mock_FormatFloat (f : float) : string := "0.1".

Definition mock_model (h : option Handler) : Model :=
  {| CallbacksHandler := h; bedrock := mock_client;
     useHumanAssistantPrompt := true; m_modelID := modelID |}.



(** A prompt that is not valid UTF-8: the single byte [0xFF]. *)
Definition bad_prompt : string := String (byte_of 0xFF) EmptyString.

(** The notifications a model sends around a call. *)
Definition start_events (m : Model) (prompts : list string) : Trace :=
  match CallbacksHandler m with
  | Some h => [EvHandleLLMStart h prompts]
  | None => []
  end.

Definition end_events (m : Model) (gens : list Generation) : Trace :=
  match CallbacksHandler m with
  | Some h => [EvHandleLLMEnd h {| Generations := [gens] |}]
  | None => []
  end.

(** The input [getResponse] hands to the endpoint for a payload. *)
Definition invoke_input (m : Model) (payload : string) : InvokeModelInput :=
  {| Body := payload; ModelId := m_modelID m;
     ContentType := "application/json" |}.

Definition zero_Response : Response := {| Completion := "" |}.

(** The payload the mock model sends for a prompt and no options. *)
Definition payload_for (p : string) : string :=
  match json_Marshal mock_FormatFloat (build_request p zero_CallOptions) with
  | Ok s => s
  | Err _ => EmptyString
  end.

Definition mock_input (p : string) : InvokeModelInput :=
  invoke_input (mock_model None) (payload_for p).

(** The options of [main] with an explicit top_k of 0, and the input sent
    for the prompt [X] under them. *)
Definition main_options_top_k_0 : list CallOption :=
  [WithMaxTokens 500; WithTemperature 0x1.999999999999ap-4%float; WithTopK 0].

Definition options_payload : string :=
  match json_Marshal mock_FormatFloat
          (build_request "X" (apply_options main_options_top_k_0)) with
  | Ok s => s
  | Err _ => EmptyString
  end.

Definition options_input : InvokeModelInput :=
  invoke_input (mock_model None) options_payload.

(** ** Further observations *)

(** A float that [encoding/json] refuses: a NaN or an infinity. *)
Definition non_finite (f : float) : bool :=
  PrimFloat.is_nan f || PrimFloat.is_infinity f.

(** The member names of [Request], in declaration order. *)
Definition declared_names : list string :=
  ["prompt"; "max_tokens_to_sample"; "temperature"; "top_p"; "top_k";
   "stop_sequences"].

(** The body [{"completion":c}] as [encoding/json] writes a [Response]. *)
Definition completion_body (c : string) : string :=
  "{" ++ appendString "completion" ++ ":" ++ appendString c ++ "}".

(** The inputs handed to the endpoint in a trace, in order. *)
Fixpoint dispatched (t : Trace) : list InvokeModelInput :=
  match t with
  | [] => []
  | EvInvokeModel _ input _ :: t' => input :: dispatched t'
  | _ :: t' => dispatched t'
  end.

Definition is_get (e : Event) : bool :=
  match e with EvHttpGet _ _ => true | _ => false end.

Definition is_load (e : Event) : bool :=
  match e with EvHTMLLoad _ _ => true | _ => false end.

(** A JSON value that cannot be stored in the string field of [Response]. *)
Definition not_string_nor_null (v : JSON) : bool :=
  match v with
  | JString _ | JNull => false
  | _ => true
  end.


(** A chain that gives the same result and events whatever it is asked. *)
Definition constant_chain (r : result (list (string * any))) (es : Trace)
  (m : Model) (docs : list Document) (question : string)
  (options : list CallOption) : M (result (list (string * any))) :=
  fun _ => (Returned r, es).


(** An environment whose configuration cannot be loaded, one whose network
    is down, and one whose endpoint refuses the request. *)
Definition mock_env_no_config : Env :=
  {| config_LoadDefaultConfig := fun _ => Err "no credentials";
     bedrock_InvokeModel := fun _ _ _ => Ok hello_body;
     http_Get := fun _ _ =>
       Ok {| StatusCode := 200; resp_Body := "<html>article</html>" |};
     html_Load := fun _ => Ok mock_docs |}.

Definition mock_env_no_network : Env :=
  {| config_LoadDefaultConfig := fun _ => Ok (mkConfig "us-east-1");
     bedrock_InvokeModel := fun _ _ _ => Ok hello_body;
     http_Get := fun _ _ => Err "dial tcp: no such host";
     html_Load := fun _ => Ok mock_docs |}.

Definition mock_env_throttled : Env :=
  {| config_LoadDefaultConfig := fun _ => Ok (mkConfig "us-east-1");
     bedrock_InvokeModel := fun _ _ _ => Err "ThrottlingException";
     http_Get := fun _ _ =>
       Ok {| StatusCode := 200; resp_Body := "<html>article</html>" |};
     html_Load := fun _ => Ok mock_docs |}.

(** An environment whose endpoint answers with a given body. *)
Definition mock_env_answering (body : string) : Env :=
  {| config_LoadDefaultConfig := fun _ => Ok (mkConfig "us-east-1");
     bedrock_InvokeModel := fun _ _ _ => Ok body;
     http_Get := fun _ _ =>
       Ok {| StatusCode := 200; resp_Body := "<html>article</html>" |};
     html_Load := fun _ => Ok mock_docs |}.

(** Bodies an endpoint may answer with, for concrete runs. *)
Definition not_json_body : string := "<html>Bad Gateway</html>".


Definition number_body : string := "{" ++ quoted "completion" ++ ":5}".

(** A text with a quote, HTML-sensitive bytes and a newline. *)
Definition tricky_text : string := "say " ++ String dquote "<hi>" ++ nl.

Definition summary_chain :
  Model -> list Document -> string -> list CallOption ->
  M (result (list (string * any))) :=
  constant_chain (Ok [("text", any_string "A summary. #ai")]) [].



(** * Properties *)

(** ** Strings, UTF-8 and string literals *)

Lemma byte_val_range (c : ascii) : 0 <= byte_val c < 256.
Proof.
  unfold byte_val. pose proof (N_ascii_bounded c). lia.
Qed.

Lemma byte_of_val (c : ascii) : byte_of (byte_val c) = c.
Proof.
  unfold byte_of, byte_val. rewrite N2Z.id. apply ascii_N_embedding.
Qed.

Lemma byte_val_inj (c : ascii) (z : Z) : byte_val c = z -> c = byte_of z.
Proof. intros <-. symmetry. apply byte_of_val. Qed.

Lemma append_assoc (a b c : string) : (a ++ b) ++ c = a ++ (b ++ c).
Proof. induction a; cbn; congruence. Qed.

Lemma append_nil_r (a : string) : a ++ "" = a.
Proof. induction a; cbn; congruence. Qed.

Lemma length_append (a b : string) :
  String.length (a ++ b) = (String.length a + String.length b)%nat.
Proof. induction a; cbn; congruence. Qed.

(** An ASCII byte reads back from what [appendString] writes for it. *)
Lemma unquote_ascii (c : ascii) (x : string) :
  byte_val c < 0x80 ->
  unquote_go ((if htmlSafe (byte_val c) then String c EmptyString else escape_ascii c) ++ x)
  = match unquote_go x with
    | Some (out, rest) => Some (String c out, rest)
    | None => None
    end.
Proof.
  intros H.
  destruct c as [[] [] [] [] [] [] [] []]; try (exfalso; vm_compute in H; discriminate H);
  cbn; destruct (unquote_go x) as [[out rest]|]; reflexivity.
Qed.

Lemma ascii_eqb_val (a c : ascii) : byte_val a <> byte_val c -> Ascii.eqb a c = false.
Proof.
  intros H. destruct (Ascii.eqb_spec a c) as [->|]; [contradiction|reflexivity].
Qed.

Lemma unquote_plain (c : ascii) (t : string) :
  Ascii.eqb c dquote = false -> Ascii.eqb c backslash = false ->
  (byte_val c <? 0x20) = false ->
  unquote_go (String c t)
  = match unquote_go t with
    | Some (out, rest) => Some (String c out, rest)
    | None => None
    end.
Proof.
  intros H1 H2 H3. cbn [unquote_go]. rewrite H1, H2, H3. reflexivity.
Qed.

Lemma unquote_high (p x : string) :
  high_bytes p = true ->
  unquote_go (p ++ x)
  = match unquote_go x with
    | Some (out, rest) => Some (p ++ out, rest)
    | None => None
    end.
Proof.
  induction p as [|c p IH]; cbn [high_bytes append]; intros H.
  - destruct (unquote_go x) as [[out rest]|]; reflexivity.
  - apply andb_true_iff in H. destruct H as [Hc Hp].
    apply Z.leb_le in Hc.
    rewrite unquote_plain.
    + rewrite (IH Hp). destruct (unquote_go x) as [[out rest]|]; reflexivity.
    + apply ascii_eqb_val. change (byte_val dquote) with 34. lia.
    + apply ascii_eqb_val. change (byte_val backslash) with 92. lia.
    + apply Z.ltb_ge. lia.
Qed.

Lemma accept_facts (b : Z) (sz : nat) (lo hi : Z) :
  accept b = Some (sz, lo, hi) ->
  0x80 <= lo /\ hi <= 0xBF /\ (sz = 2 \/ sz = 3 \/ sz = 4)%nat.
Proof.
  unfold accept.
  repeat match goal with
    | |- context [if ?c then _ else _] => destruct c
    end; intros H; inversion H; subst; lia.
Qed.

Lemma decode_shape (c0 : ascii) (t : string) :
  0x80 <= byte_val c0 ->
  bad_rune (DecodeRuneInString (String c0 t)) = false ->
  exists p q,
    String c0 t = p ++ q
    /\ String.length p = snd (DecodeRuneInString (String c0 t))
    /\ high_bytes p = true
    /\ (2 <= String.length p)%nat
    /\ forall y, DecodeRuneInString (p ++ y) = DecodeRuneInString (String c0 t).
Proof.
  intros Hhi. unfold DecodeRuneInString.
  destruct (byte_val c0 <? 128) eqn:Hlt; [apply Z.ltb_lt in Hlt; lia|].
  destruct (accept (byte_val c0)) as [[[sz lo] hi]|] eqn:Hacc;
    [|intros H; vm_compute in H; discriminate H].
  destruct (accept_facts _ _ _ _ Hacc) as (Hlo & Hhi' & Hsz).
  destruct t as [|c1 t1]; [intros H; vm_compute in H; discriminate H|].
  destruct (in_range lo hi (byte_val c1)) eqn:Hr1; cbn [negb];
    [|intros H; vm_compute in H; discriminate H].
  assert (H1 : 0x80 <= byte_val c1)
    by (unfold in_range in Hr1; lia).
  destruct (sz =? 2)%nat eqn:Hsz2.
  { intros _. exists (String c0 (String c1 "")), t1.
    repeat split; cbn [high_bytes String.length append snd]; auto; try lia.
    intros y. cbn [append]. rewrite Hlt, Hacc, Hr1. cbn [negb].
      rewrite Hsz2. reflexivity. }
  destruct t1 as [|c2 t2]; [intros H; vm_compute in H; discriminate H|].
  destruct (is_cont (byte_val c2)) eqn:Hr2; cbn [negb];
    [|intros H; vm_compute in H; discriminate H].
  assert (H2 : 0x80 <= byte_val c2)
    by (unfold is_cont, in_range in Hr2; lia).
  destruct (sz =? 3)%nat eqn:Hsz3.
  { intros _. exists (String c0 (String c1 (String c2 ""))), t2.
    repeat split; cbn [high_bytes String.length append snd]; auto; try lia.
    intros y. cbn [append]. rewrite Hlt, Hacc, Hr1. cbn [negb].
      rewrite Hsz2, Hr2. cbn [negb]. rewrite Hsz3. reflexivity. }
  destruct t2 as [|c3 t3]; [intros H; vm_compute in H; discriminate H|].
  destruct (is_cont (byte_val c3)) eqn:Hr3; cbn [negb];
    [|intros H; vm_compute in H; discriminate H].
  assert (H3 : 0x80 <= byte_val c3)
    by (unfold is_cont, in_range in Hr3; lia).
  intros _. exists (String c0 (String c1 (String c2 (String c3 "")))), t3.
  repeat split; cbn [high_bytes String.length append snd]; auto; try lia.
  intros y. cbn [append]. rewrite Hlt, Hacc, Hr1. cbn [negb].
    rewrite Hsz2, Hr2. cbn [negb]. rewrite Hsz3, Hr3. reflexivity.
Qed.

Lemma take_app (p q : string) : take (String.length p) (p ++ q) = p.
Proof. induction p; cbn; [destruct q; reflexivity|congruence]. Qed.

Lemma drop_app (p q : string) : drop (String.length p) (p ++ q) = q.
Proof. induction p; cbn; [destruct q; reflexivity|assumption]. Qed.

Lemma length_drop (k : nat) (s : string) :
  String.length (drop k s) = (String.length s - k)%nat.
Proof.
  revert s. induction k as [|k IH]; intros [|c t]; cbn; auto.
Qed.

Lemma decode_width (c : ascii) (t : string) :
  (1 <= snd (DecodeRuneInString (String c t)))%nat.
Proof.
  unfold DecodeRuneInString.
  repeat match goal with
    | |- context [if ?b then _ else _] => destruct b
    | |- context [match ?x with _ => _ end] => destruct x
    end; cbn [snd]; lia.
Qed.

Lemma decode_ascii (c : ascii) (t : string) :
  byte_val c < 0x80 ->
  DecodeRuneInString (String c t) = (byte_val c, 1%nat).
Proof.
  intros H. unfold DecodeRuneInString.
  destruct (byte_val c <? 128) eqn:Hlt; [reflexivity|lia].
Qed.

Lemma bad_rune_ascii (b : Z) : b < 0x80 -> bad_rune (b, 1%nat) = false.
Proof.
  intros H. unfold bad_rune, RuneError. cbn [fst snd].
  destruct (b =? 65533) eqn:He; [lia|reflexivity].
Qed.

Lemma accept_lead (b : Z) (sz : nat) (lo hi : Z) :
  accept b = Some (sz, lo, hi) ->
  (sz = 2%nat /\ 0xC2 <= b <= 0xDF)
  \/ (sz = 3%nat /\ 0xE0 <= b <= 0xEF)
  \/ (sz = 4%nat /\ 0xF0 <= b <= 0xF4 /\ (b = 0xF0 -> lo = 0x90)).
Proof.
  unfold accept, in_range.
  repeat match goal with
    | |- context [if ?c then _ else _] => destruct c eqn:?
    end; intros H; inversion H; subst; lia.
Qed.

(** The line and paragraph separators have one encoding each. *)
Lemma decode_separator (c0 : ascii) (t : string) :
  0x80 <= byte_val c0 ->
  fst (DecodeRuneInString (String c0 t)) = 0x2028
  \/ fst (DecodeRuneInString (String c0 t)) = 0x2029 ->
  take (snd (DecodeRuneInString (String c0 t))) (String c0 t)
  = AppendRune (fst (DecodeRuneInString (String c0 t))).
Proof.
  intros Hhi. unfold DecodeRuneInString.
  destruct (byte_val c0 <? 128) eqn:Hlt; [lia|].
  destruct (accept (byte_val c0)) as [[[sz lo] hi]|] eqn:Hacc;
    [|cbn; intros [H|H]; discriminate H].
  pose proof (accept_facts _ _ _ _ Hacc) as (Hlo & Hhi' & _).
  pose proof (accept_lead _ _ _ _ Hacc) as Hlead.
  pose proof (byte_val_range c0) as R0.
  destruct t as [|c1 t1]; [cbn; intros [H|H]; discriminate H|].
  pose proof (byte_val_range c1) as R1.
  destruct (in_range lo hi (byte_val c1)) eqn:Hr1; cbn [negb];
    [|cbn; intros [H|H]; discriminate H].
  unfold in_range in Hr1.
  destruct (sz =? 2)%nat eqn:Hsz2.
  { cbn [fst snd]. intros H. exfalso.
    apply Nat.eqb_eq in Hsz2. Z.div_mod_to_equations. lia. }
  destruct t1 as [|c2 t2]; [cbn; intros [H|H]; discriminate H|].
  pose proof (byte_val_range c2) as R2.
  destruct (is_cont (byte_val c2)) eqn:Hr2; cbn [negb];
    [|cbn; intros [H|H]; discriminate H].
  unfold is_cont, in_range in Hr2.
  destruct (sz =? 3)%nat eqn:Hsz3.
  { cbn [fst snd]. apply Nat.eqb_eq in Hsz3. intros H.
    assert (byte_val c0 = 0xE2) as E0 by (Z.div_mod_to_equations; lia).
    assert (byte_val c1 = 0x80) as E1 by (Z.div_mod_to_equations; lia).
    assert (byte_val c2 = 0xA8 \/ byte_val c2 = 0xA9) as E2
        by (Z.div_mod_to_equations; lia).
    apply byte_val_inj in E0, E1. subst c0 c1.
    destruct E2 as [E2|E2]; pose proof E2 as E2'; apply byte_val_inj in E2;
      subst c2; reflexivity. }
  destruct t2 as [|c3 t3]; [cbn; intros [H|H]; discriminate H|].
  pose proof (byte_val_range c3) as R3.
  destruct (is_cont (byte_val c3)) eqn:Hr3; cbn [negb];
    [|cbn; intros [H|H]; discriminate H].
  unfold is_cont, in_range in Hr3.
  cbn [fst snd]. intros H. exfalso.
  apply Nat.eqb_neq in Hsz2, Hsz3.
  Z.div_mod_to_equations. lia.
Qed.

Lemma unquote_appendString_go (n : nat) :
  forall (s rest : string),
    (String.length s <= n)%nat ->
    unquote_go (appendString_go n s ++ String dquote rest)
    = Some (coerce_go n s, rest).
Proof.
  induction n as [|n IH]; intros s rest Hlen.
  { destruct s; [reflexivity|cbn in Hlen; lia]. }
  destruct s as [|c t]; [reflexivity|].
  cbn [String.length] in Hlen.
  cbn [appendString_go coerce_go].
  destruct (byte_val c <? 128) eqn:Hlt.
  - apply Z.ltb_lt in Hlt.
    rewrite decode_ascii by exact Hlt.
    rewrite bad_rune_ascii by exact Hlt.
    cbn [snd take drop append].
    rewrite append_assoc, unquote_ascii by exact Hlt.
    rewrite IH by lia. reflexivity.
  - apply Z.ltb_ge in Hlt.
    destruct (bad_rune (DecodeRuneInString (String c t))) eqn:Hbad.
    + cbn [append]. cbn. rewrite IH by lia. reflexivity.
    + destruct (decode_shape c t Hlt Hbad) as (p & q & Heq & Hp & Hhigh & H2 & _).
      pose proof (decode_separator c t Hlt) as Hsep.
      remember (DecodeRuneInString (String c t)) as r eqn:Hr.
      rewrite Heq in Hsep |- *. rewrite <- Hp in Hsep |- *.
      rewrite take_app in Hsep. rewrite take_app, drop_app.
      assert (Hq : (String.length q <= n)%nat).
      { apply (f_equal String.length) in Heq. rewrite length_append in Heq.
        cbn [String.length] in Heq. lia. }
      destruct (fst r =? 8232) eqn:H28.
      { apply Z.eqb_eq in H28. rewrite (Hsep (or_introl H28)), H28. cbn.
        rewrite IH by exact Hq. reflexivity. }
      destruct (fst r =? 8233) eqn:H29.
      { apply Z.eqb_eq in H29. rewrite (Hsep (or_intror H29)), H29. cbn.
        rewrite IH by exact Hq. reflexivity. }
      cbn [orb]. rewrite append_assoc, unquote_high by exact Hhigh.
      rewrite IH by exact Hq. reflexivity.
Qed.

Lemma coerce_go_fuel (n : nat) :
  forall (m : nat) (s : string),
    (String.length s <= n)%nat -> (String.length s <= m)%nat ->
    coerce_go n s = coerce_go m s.
Proof.
  induction n as [|n IH]; intros m s Hn Hm.
  { destruct s; [destruct m; reflexivity|cbn in Hn; lia]. }
  destruct s as [|c t]; [destruct m; reflexivity|].
  destruct m as [|m]; [cbn in Hm; lia|].
  cbn [String.length] in Hn, Hm. cbn [coerce_go].
  pose proof (decode_width c t) as Hw.
  pose proof (length_drop (snd (DecodeRuneInString (String c t))) (String c t)) as Hd.
  cbn [String.length] in Hd.
  destruct (bad_rune _).
  - f_equal. apply IH; lia.
  - f_equal. apply IH; lia.
Qed.

Lemma coerce_utf8_cons_ascii (c : ascii) (t : string) :
  byte_val c < 0x80 -> coerce_utf8 (String c t) = String c (coerce_utf8 t).
Proof.
  intros H. unfold coerce_utf8. cbn [String.length coerce_go].
  rewrite decode_ascii, bad_rune_ascii by exact H. reflexivity.
Qed.

Lemma coerce_app_valid_go (n : nat) :
  forall (x y : string),
    (String.length x <= n)%nat -> ValidString_go n x = true ->
    coerce_utf8 (x ++ y) = x ++ coerce_utf8 y.
Proof.
  induction n as [|n IH]; intros x y Hlen Hv.
  { destruct x; [reflexivity|cbn in Hlen; lia]. }
  destruct x as [|c t]; [reflexivity|].
  cbn [String.length] in Hlen. cbn [ValidString_go] in Hv.
  destruct (bad_rune (DecodeRuneInString (String c t))) eqn:Hbad;
    [discriminate Hv|].
  destruct (Z.ltb_spec (byte_val c) 128) as [Hlt|Hge].
  - rewrite decode_ascii in Hv by exact Hlt. cbn [snd drop] in Hv.
    cbn [append]. rewrite coerce_utf8_cons_ascii by exact Hlt.
    rewrite IH by (lia || exact Hv). reflexivity.
  - destruct (decode_shape c t Hge Hbad) as (p & q & Heq & Hp & _ & H2 & Hdec).
    rewrite <- Hp in Hv. rewrite Heq in Hv. rewrite drop_app in Hv.
    assert (Hq : (String.length q <= n)%nat).
    { apply (f_equal String.length) in Heq. rewrite length_append in Heq.
      cbn [String.length] in Heq. lia. }
    rewrite Heq, append_assoc.
    assert (Hstep : forall z, coerce_utf8 (p ++ z) = p ++ coerce_utf8 z).
    { intros z. unfold coerce_utf8 at 1.
      destruct p as [|c' p']; [cbn in H2; lia|].
      cbn [append String.length coerce_go].
      change (String c' (p' ++ z)) with (String c' p' ++ z).
      rewrite Hdec, Hbad, <- Hp, take_app, drop_app.
      rewrite (coerce_go_fuel _ (String.length z)); [reflexivity| |lia].
      rewrite length_append. cbn [String.length] in H2. lia. }
    rewrite Hstep, (IH q y Hq Hv), append_assoc. reflexivity.
Qed.

Lemma coerce_app_valid (x y : string) :
  ValidString x = true -> coerce_utf8 (x ++ y) = x ++ coerce_utf8 y.
Proof.
  intros H. apply (coerce_app_valid_go (String.length x)); [lia|exact H].
Qed.

Lemma coerce_human_assistant (x : string) :
  ValidString x = true -> coerce_utf8 (human_assistant x) = human_assistant x.
Proof.
  intros H. unfold human_assistant.
  change (nl ++ nl ++ "Human:" ++ x ++ nl ++ nl ++ "Assistant:")
    with ((nl ++ nl ++ "Human:") ++ x ++ (nl ++ nl ++ "Assistant:")).
  rewrite coerce_app_valid by reflexivity.
  rewrite coerce_app_valid by exact H.
  reflexivity.
Qed.


(** ** Runs of [Generate] *)

Section GenerateRuns.

Variable E : Env.
Variable FormatFloat : float -> string.

(** A run of [Generate], case by case. *)
Lemma Generate_run (m : Model) (prompts : list string)
  (options : list CallOption) (h : Trace) :
  Generate E FormatFloat m prompts options h =
  let pre := start_events m prompts in
  match prompts with
  | [] =>
      (Panicked "runtime error: index out of range [0] with length 0", pre)
  | p :: _ =>
      match json_Marshal FormatFloat (build_request p (apply_options options)) with
      | Err err => (Returned (Err err), pre)
      | Ok payload =>
          let input := invoke_input m payload in
          let ans := bedrock_InvokeModel E (h ++ pre)%list (bedrock m) input in
          let inv := EvInvokeModel (bedrock m) input ans in
          match ans with
          | Err err => (Returned (Err err), (pre ++ [inv])%list)
          | Ok body =>
              match json_Unmarshal body zero_Response with
              | (_, Some err) => (Returned (Err err), (pre ++ [inv])%list)
              | (resp, None) =>
                  let gens := [ {| Text := Completion resp |} ] in
                  (Returned (Ok gens),
                   (pre ++ [inv] ++ end_events m gens)%list)
              end
          end
      end
  end.
Proof.
  unfold Generate, getResponse, first_prompt, start_events, end_events,
    invoke_input, zero_Response, bind, call, emit, ret, panic.
  destruct (CallbacksHandler m) as [hd|]; destruct prompts as [|p ps]; cbn;
    try reflexivity;
    destruct (json_Marshal _ _) as [payload|err]; cbn; try reflexivity;
    rewrite ?app_nil_r;
    destruct (bedrock_InvokeModel _ _ _ _) as [body|err]; cbn;
    try reflexivity;
    destruct (json_Unmarshal _ _) as [resp [err|]]; cbn; reflexivity.
Qed.

(** Every case of a run of [Generate] in the goal and the hypotheses. *)
Ltac split_run m prompts :=
  rewrite Generate_run in *; cbv zeta in *;
  unfold start_events, end_events, outcome, events in *;
  destruct (CallbacksHandler m) as [hd|];
  destruct prompts as [|p ps]; cbn [fst snd app] in *;
  try destruct (json_Marshal _ _) as [payload|merr] eqn:Hmarshal;
  cbn [fst snd app] in *;
  try destruct (bedrock_InvokeModel _ _ _ _) as [body'|ierr] eqn:Hinvoke;
  cbn [fst snd app] in *;
  try destruct (json_Unmarshal _ _) as [resp' [uerr|]] eqn:Hdecode;
  cbn [fst snd app] in *.

(** C9: [Generate] indexes its prompt list before any error check, so on
    the empty list it panics instead of returning an error, and nothing is
    sent to the endpoint. *)
Theorem Generate_empty_prompts_panics (m : Model)
  (options : list CallOption) (h : Trace) :
  outcome (Generate E FormatFloat m [] options h)
  = Panicked "runtime error: index out of range [0] with length 0"
  /\ count is_invoke (events (Generate E FormatFloat m [] options h)) = 0%nat.
Proof.
  rewrite Generate_run. unfold start_events, outcome, events.
  destruct (CallbacksHandler m); split; reflexivity.
Qed.

(** C3: a call of [Generate] that returns successfully yields exactly one
    generation, for exactly one request sent to the endpoint. *)
Theorem Generate_one_generation (m : Model) (prompts : list string)
  (options : list CallOption) (h : Trace) (gens : list Generation) :
  outcome (Generate E FormatFloat m prompts options h) = Returned (Ok gens) ->
  List.length gens = 1%nat
  /\ count is_invoke (events (Generate E FormatFloat m prompts options h)) = 1%nat.
Proof.
  intros H. split_run m prompts; try discriminate;
    injection H as <-; split; reflexivity.
Qed.

(** C2: when the endpoint answers a request with a body that deserializes,
    without error, to a response with completion [c], [Generate] returns
    successfully and its result carries the text [c]. *)
Theorem Generate_returns_completion (m : Model) (prompts : list string)
  (options : list CallOption) (h : Trace)
  (c : Client) (input : InvokeModelInput) (body : string) (resp : Response) :
  In (EvInvokeModel c input (Ok body))
     (events (Generate E FormatFloat m prompts options h)) ->
  json_Unmarshal body zero_Response = (resp, None) ->
  outcome (Generate E FormatFloat m prompts options h)
  = Returned (Ok [ {| Text := Completion resp |} ]).
Proof.
  intros Hin Hbody. generalize dependent resp.
  split_run m prompts; intros resp Hbody; simpl in Hin;
    repeat match goal with
      | H : False |- _ => destruct H
      | H : _ \/ _ |- _ => destruct H
      | H : _ = EvInvokeModel _ _ _ |- _ =>
          try discriminate H; injection H as ? ? ?
      end; subst; congruence.
Qed.

(** C4: with a handler configured, every call of [Generate] sends it the
    start notification exactly once, before the request is dispatched, and
    sends it the end notification exactly once, after the answer, when the
    call returns successfully and not at all otherwise; without a handler
    neither notification is sent. *)
Theorem Generate_notifies_handler (m : Model) (prompts : list string)
  (options : list CallOption) (h : Trace) :
  let r := Generate E FormatFloat m prompts options h in
  match CallbacksHandler m with
  | Some hd =>
      filter is_start (events r) = [EvHandleLLMStart hd prompts]
      /\ filter is_end (events r)
         = match outcome r with
           | Returned (Ok gens) =>
               [EvHandleLLMEnd hd {| Generations := [gens] |}]
           | _ => []
           end
      /\ count is_end (events r)
         = (if succeeded (outcome r) then 1%nat else 0%nat)
      /\ (forall pre e post,
             events r = (pre ++ e :: post)%list -> is_invoke e = true ->
             count is_start pre = 1%nat /\ count is_start post = 0%nat
             /\ count is_end pre = 0%nat
             /\ count is_end post = count is_end (events r))
  | None =>
      filter is_start (events r) = [] /\ filter is_end (events r) = []
  end.
Proof.
  intros r. subst r. rewrite Generate_run. cbv zeta.
  unfold start_events, end_events, outcome, events, count.
  destruct (CallbacksHandler m) as [hd|]; destruct prompts as [|p ps];
    cbn [fst snd app];
    try destruct (json_Marshal _ _) as [payload|merr];
    cbn [fst snd app];
    try destruct (bedrock_InvokeModel _ _ _ _) as [body|ierr];
    cbn [fst snd app];
    try destruct (json_Unmarshal _ _) as [resp [uerr|]];
    cbn [fst snd app];
    try (split; reflexivity);
    (split; [reflexivity | split; [reflexivity | split; [reflexivity|]]]);
    intros pre e post Heq Hinv;
    destruct pre as [|e1 [|e2 [|e3 [|e4 pre']]]]; simpl in Heq;
    inversion Heq; subst; simpl in Hinv; try discriminate Hinv;
    try (repeat split; reflexivity);
    match goal with
    | H : [] = (_ ++ _ :: _)%list |- _ =>
        exfalso; revert H; apply app_cons_not_nil
    end.
Qed.

(** C8: against an endpoint that answers the same request in the same way,
    two calls of [Generate] with the same prompts and options produce the
    same result, whatever happened before each of them. *)
Theorem Generate_deterministic (m : Model) (prompts : list string)
  (options : list CallOption) (h1 h2 : Trace) :
  deterministic_endpoint E ->
  outcome (Generate E FormatFloat m prompts options h1)
  = outcome (Generate E FormatFloat m prompts options h2)
  /\ events (Generate E FormatFloat m prompts options h1)
     = events (Generate E FormatFloat m prompts options h2).
Proof.
  intros Hdet. rewrite !Generate_run. cbv zeta.
  destruct prompts as [|p ps]; [split; reflexivity|].
  destruct (json_Marshal _ _) as [payload|merr]; [|split; reflexivity].
  rewrite (Hdet (h1 ++ start_events m (p :: ps))%list
                (h2 ++ start_events m (p :: ps))%list).
  split; reflexivity.
Qed.

(** The request every dispatch of [Generate] carries. *)
Lemma Generate_dispatch (m : Model) (prompts : list string)
  (options : list CallOption) (h : Trace)
  (c : Client) (input : InvokeModelInput) (ans : result string) :
  In (EvInvokeModel c input ans)
     (events (Generate E FormatFloat m prompts options h)) ->
  exists p ps,
    prompts = p :: ps
    /\ json_Marshal FormatFloat (build_request p (apply_options options))
       = Ok (Body input).
Proof.
  intros Hin. split_run m prompts; simpl in Hin;
    repeat match goal with
      | H : False |- _ => destruct H
      | H : _ \/ _ |- _ => destruct H
      | H : _ = EvInvokeModel _ _ _ |- _ =>
          try discriminate H; injection H as ? ? ?
      end; subst; exists p, ps; split; auto.
Qed.

End GenerateRuns.

(** ** Runs of the fetcher and of [main] *)

Section FetcherRuns.

Variable E : Env.

(** A run of [getDocsFromLink], case by case. *)
Lemma getDocsFromLink_run (link : string) (h : Trace) :
  getDocsFromLink E link h =
  let l1 := EvStdout (loading_line link) in
  let ans := http_Get E (h ++ [l1])%list link in
  let get := EvHttpGet link ans in
  match ans with
  | Err err => (Returned (Err err), [l1; get])
  | Ok resp =>
      let d := html_Load E (resp_Body resp) in
      let ld := EvHTMLLoad (resp_Body resp) d in
      match d with
      | Err err => (Exited 1, [l1; get; ld; EvLogFatal err])
      | Ok docs =>
          (Returned (Ok docs),
           [l1; get; ld; EvStdout (loaded_line link); EvBodyClose])
      end
  end.
Proof.
  unfold getDocsFromLink, Println, defer, log_Fatal, bind, call, emit, ret,
    loading_line, loaded_line, join.
  cbn. destruct (http_Get E _ link) as [resp|err]; cbn; [|reflexivity].
  destruct (html_Load E (resp_Body resp)) as [docs|err]; cbn; reflexivity.
Qed.

(** C7: whatever the status code of the response received, its body is
    handed to the HTML loader and the fetch succeeds whenever the loader
    does; the status code alone never causes an error. *)
Theorem fetch_ignores_status (link link' : string) (h : Trace)
  (code : Z) (body : string) :
  In (EvHttpGet link' (Ok {| StatusCode := code; resp_Body := body |}))
     (events (getDocsFromLink E link h)) ->
  In (EvHTMLLoad body (html_Load E body)) (events (getDocsFromLink E link h))
  /\ outcome (getDocsFromLink E link h)
     = match html_Load E body with
       | Ok docs => Returned (Ok docs)
       | Err _ => Exited 1
       end.
Proof.
  rewrite getDocsFromLink_run. cbv zeta. unfold events, outcome.
  destruct (http_Get E _ link) as [resp|err]; cbn [fst snd].
  - destruct (html_Load E (resp_Body resp)) as [docs|err] eqn:Hload;
      cbn [fst snd]; simpl; intros Hin;
      repeat match goal with
        | H : False |- _ => destruct H
        | H : _ \/ _ |- _ => destruct H
        | H : _ = EvHttpGet _ _ |- _ =>
            try discriminate H; injection H as ? ?
        end; subst; cbn [resp_Body] in *; rewrite Hload; auto.
  - simpl. intros [Hin|[Hin|[]]]; discriminate Hin.
Qed.

(** C6, the half the code does not meet: when the HTML loader fails, the
    fetcher does not return; the process exits with status 1 through
    [log.Fatal], and the deferred close of the body does not run. *)
Theorem fetch_parse_failure_exits (link : string) (h : Trace)
  (body : string) (err : error) :
  In (EvHTMLLoad body (Err err)) (events (getDocsFromLink E link h)) ->
  outcome (getDocsFromLink E link h) = Exited 1
  /\ In (EvLogFatal err) (events (getDocsFromLink E link h))
  /\ count is_close (events (getDocsFromLink E link h)) = 0%nat.
Proof.
  rewrite getDocsFromLink_run. cbv zeta. unfold events, outcome, count.
  destruct (http_Get E _ link) as [resp|gerr]; cbn [fst snd].
  - destruct (html_Load E (resp_Body resp)) as [docs|lerr];
      cbn [fst snd]; simpl; intros Hin;
      repeat match goal with
        | H : False |- _ => destruct H
        | H : _ \/ _ |- _ => destruct H
        | H : _ = EvHTMLLoad _ _ |- _ =>
            try discriminate H; injection H as ? ?
        end; subst; auto 10.
  - simpl. intros [Hin|[Hin|[]]]; discriminate Hin.
Qed.

(** The other half of C6: a failed HTTP request is returned to the caller
    as an error. *)
Lemma fetch_network_failure_returns (link link' : string) (h : Trace)
  (err : error) :
  In (EvHttpGet link' (Err err)) (events (getDocsFromLink E link h)) ->
  outcome (getDocsFromLink E link h) = Returned (Err err).
Proof.
  rewrite getDocsFromLink_run. cbv zeta. unfold events, outcome.
  destruct (http_Get E _ link) as [resp|gerr]; cbn [fst snd].
  - destruct (html_Load E (resp_Body resp)) as [docs|lerr];
      cbn [fst snd]; simpl; intros Hin;
      repeat match goal with
        | H : False |- _ => destruct H
        | H : _ \/ _ |- _ => destruct H
        | H : _ = EvHttpGet _ _ |- _ =>
            try discriminate H; injection H as ? ?
        end; discriminate.
  - simpl. intros [Hin|[Hin|[]]]; try discriminate Hin.
    injection Hin as _ ->. reflexivity.
Qed.

End FetcherRuns.

Section OrchestratorRuns.

Variable E : Env.


Lemma newLargeLanguageModel_run (h : Trace) :
  newLargeLanguageModel E h =
  let ans := config_LoadDefaultConfig E h in
  match ans with
  | Ok cfg =>
      (Returned {| CallbacksHandler := None; bedrock := NewFromConfig cfg;
                   useHumanAssistantPrompt := true; m_modelID := modelID |},
       [EvLoadDefaultConfig ans])
  | Err err => (Exited 1, [EvLoadDefaultConfig ans; EvLogFatal err])
  end.
Proof.
  unfold newLargeLanguageModel, bind, call, ret, log_Fatal. cbv zeta.
  destruct (config_LoadDefaultConfig E h); reflexivity.
Qed.

Lemma loadData_run (link : string) (h : Trace) :
  loadData E link h =
  match getDocsFromLink E link h with
  | (Returned (Ok docs), es) => (Returned docs, es)
  | (Returned (Err err), es) => (Exited 1, (es ++ [EvLogFatal err])%list)
  | (Panicked msg, es) => (Panicked msg, es)
  | (Exited c, es) => (Exited c, es)
  end.
Proof.
  unfold loadData, bind, ret, log_Fatal.
  destruct (getDocsFromLink E link h) as [[[docs|err]|msg|c] es]; cbn;
    rewrite ?app_nil_r; reflexivity.
Qed.


End OrchestratorRuns.

(** ** The members of the payload *)

(** The names of the members written: the two untagged fields always, a field
    tagged [omitempty] exactly when its value is not empty. *)
Lemma member_names_omitempty (r : Request) :
  In "prompt" (member_names r)
  /\ In "max_tokens_to_sample" (member_names r)
  /\ (In "temperature" (member_names r)
      <-> PrimFloat.eqb (Temperature r) 0%float = false)
  /\ (In "top_p" (member_names r) <-> PrimFloat.eqb (TopP r) 0%float = false)
  /\ (In "top_k" (member_names r) <-> TopK r <> 0)
  /\ (In "stop_sequences" (member_names r) <-> StopSequences r <> []).
Proof.
  unfold member_names, encoded_fields, Request_fields.
  cbn [filter omitEmpty value isEmptyValue andb negb].
  destruct (PrimFloat.eqb (Temperature r) 0%float);
    destruct (PrimFloat.eqb (TopP r) 0%float);
    destruct (Z.eqb_spec (TopK r) 0) as [Hk|Hk];
    destruct (StopSequences r) as [|s0 ss];
    cbn [List.length Nat.eqb negb map name In];
    repeat split; intros; auto 10; try discriminate;
    repeat match goal with
      | H : _ \/ _ |- _ => destruct H
      | H : False |- _ => destruct H
      | H : _ = _ :> string |- _ => discriminate H
      end; try contradiction; try congruence.
Qed.

(** ** The prompt member of the payload *)

Lemma Sprintf_format (x : string) : Sprintf format [x] = human_assistant x.
Proof. reflexivity. Qed.

(** One well-formed rune in front of a text is kept by the coercion. *)
Lemma coerce_rune (p : string) (c : ascii) (t : string) :
  (2 <= String.length p)%nat ->
  (forall y, DecodeRuneInString (p ++ y) = DecodeRuneInString (String c t)) ->
  String.length p = snd (DecodeRuneInString (String c t)) ->
  bad_rune (DecodeRuneInString (String c t)) = false ->
  forall z, coerce_utf8 (p ++ z) = p ++ coerce_utf8 z.
Proof.
  intros H2 Hdec Hp Hbad z. unfold coerce_utf8 at 1.
  destruct p as [|c' p']; [cbn in H2; lia|].
  cbn [append String.length coerce_go].
  change (String c' (p' ++ z)) with (String c' p' ++ z).
  rewrite Hdec, Hbad, <- Hp, take_app, drop_app.
  rewrite (coerce_go_fuel _ (String.length z)); [reflexivity| |lia].
  rewrite length_append. cbn [String.length] in H2. lia.
Qed.

(** Coercing twice changes nothing more. *)
Lemma coerce_go_idempotent (n : nat) :
  forall s, (String.length s <= n)%nat ->
            coerce_utf8 (coerce_go n s) = coerce_go n s.
Proof.
  induction n as [|n IH]; intros s Hlen.
  { destruct s; [reflexivity|cbn in Hlen; lia]. }
  destruct s as [|c t]; [reflexivity|].
  cbn [String.length] in Hlen. cbn [coerce_go].
  destruct (bad_rune (DecodeRuneInString (String c t))) eqn:Hbad.
  - rewrite coerce_app_valid by reflexivity. rewrite IH by lia. reflexivity.
  - destruct (Z.ltb_spec (byte_val c) 128) as [Hlt|Hge].
    + rewrite decode_ascii by exact Hlt. cbn [snd take drop append].
      rewrite coerce_utf8_cons_ascii by exact Hlt.
      rewrite IH by lia. reflexivity.
    + destruct (decode_shape c t Hge Hbad) as (p & q & Heq & Hp & _ & H2 & Hdec).
      pose proof (coerce_rune p c t H2 Hdec Hp Hbad) as Hstep.
      rewrite <- Hp. rewrite Heq. rewrite !take_app, !drop_app.
      rewrite Hstep, IH; [reflexivity|].
      apply (f_equal String.length) in Heq. rewrite length_append in Heq.
      cbn [String.length] in Heq. lia.
Qed.

(** Reading back a literal written by [appendString] gives the text coerced
    to valid UTF-8, and leaves what follows the literal. *)
Lemma parse_string_appendString (s rest : string) :
  parse_string (appendString s ++ rest) = Some (coerce_utf8 s, rest).
Proof.
  unfold appendString. cbn [append]. rewrite append_assoc. cbn [append].
  unfold parse_string. rewrite Ascii.eqb_refl.
  rewrite unquote_appendString_go by lia.
  rewrite coerce_go_idempotent by lia. reflexivity.
Qed.

Section PromptMember.

Variable FormatFloat : float -> string.

(** A marshalled request opens with the member [prompt]. *)
Lemma json_Marshal_opens_with_prompt (r : Request) (payload : string) :
  json_Marshal FormatFloat r = Ok payload ->
  exists tail,
    payload = "{" ++ quoted "prompt" ++ ":" ++ appendString (Prompt r) ++ tail.
Proof.
  unfold json_Marshal, encoded_fields, Request_fields.
  cbn [filter omitEmpty value andb negb map encode_field encode_value name
         sequence].
  change (appendString "prompt") with (quoted "prompt").
  match goal with
  | |- context [sequence ?l] => destruct (sequence l) as [parts|err]
  end; intros H; inversion H; subst; clear H.
  eexists. unfold join, appendString, quoted. cbn [String.concat append].
  rewrite ?append_assoc. cbn [append]. reflexivity.
Qed.

End PromptMember.

Lemma prefix_app (p s : string) : String.prefix p (p ++ s) = true.
Proof.
  induction p as [|a p IH]; cbn; [destruct s; reflexivity|].
  destruct (ascii_dec a a); [exact IH|contradiction].
Qed.

Lemma strip_prefix_app (p s : string) : strip_prefix p (p ++ s) = Some s.
Proof. unfold strip_prefix. rewrite prefix_app, drop_app. reflexivity. Qed.

Section PromptDispatched.

Variable E : Env.
Variable FormatFloat : float -> string.

(** The member [prompt] that opens a marshalled request reads back as the
    prompt of the request, coerced to valid UTF-8. *)
Lemma leading_prompt_marshal (r : Request) (payload : string) :
  json_Marshal FormatFloat r = Ok payload ->
  leading_prompt payload = Some (coerce_utf8 (Prompt r)).
Proof.
  intros H. apply json_Marshal_opens_with_prompt in H.
  destruct H as [tail ->]. unfold leading_prompt.
  change (appendString "prompt") with (quoted "prompt").
  change ("{" ++ quoted "prompt" ++ ":" ++ appendString (Prompt r) ++ tail)
    with (("{" ++ quoted "prompt" ++ ":") ++ appendString (Prompt r) ++ tail).
  rewrite strip_prefix_app, parse_string_appendString. reflexivity.
Qed.

End PromptDispatched.

(** ** Reading a payload back *)

Lemma digits_uint (u : Decimal.uint) (c : ascii) (t : string) :
  is_stop c = true ->
  digits (NilEmpty.string_of_uint u ++ String c t)
  = (NilEmpty.string_of_uint u, String c t).
Proof.
  intros Hc. induction u; cbn [NilEmpty.string_of_uint append digits];
    try (change (is_digit _) with true; cbn iota; rewrite IHu; reflexivity).
  assert (is_digit c = false) as ->; [|reflexivity].
  unfold is_stop in Hc.
  destruct (Ascii.eqb_spec c ",") as [->|]; [reflexivity|].
  destruct (Ascii.eqb_spec c "}") as [->|]; [reflexivity|].
  destruct (Ascii.eqb_spec c "]") as [->|]; [reflexivity|discriminate Hc].
Qed.

Lemma nzhead_no_zero (d : Decimal.uint) :
  match Decimal.nzhead d with Decimal.D0 _ => False | _ => True end.
Proof. induction d; cbn; auto. Qed.

Lemma to_uint_normal (p : positive) : Decimal.unorm (Pos.to_uint p) = Pos.to_uint p.
Proof.
  pose proof (DecimalPos.Unsigned.to_of (Pos.to_uint p)) as H.
  rewrite DecimalPos.Unsigned.of_to in H. symmetry. exact H.
Qed.

Lemma to_uint_head (p : positive) :
  match Pos.to_uint p with
  | Decimal.Nil | Decimal.D0 _ => False
  | _ => True
  end.
Proof.
  pose proof (to_uint_normal p) as H. pose proof (DecimalPos.Unsigned.to_uint_nonnil p) as Hn.
  pose proof (nzhead_no_zero (Pos.to_uint p)) as Hz.
  unfold Decimal.unorm in H.
  destruct (Pos.to_uint p) eqn:E; try exact I; try contradiction.
  cbn [Decimal.nzhead] in H, Hz.
  destruct (Decimal.nzhead u) eqn:E'; try contradiction; try discriminate H.
  inversion H; subst. apply (DecimalPos.Unsigned.to_uint_nonzero p). exact E.
Qed.


Lemma stop_facts (c : ascii) :
  is_stop c = true ->
  is_digit c = false /\ Ascii.eqb c "." = false
  /\ Ascii.eqb c "e" = false /\ Ascii.eqb c "E" = false
  /\ is_ws c = false.
Proof.
  unfold is_stop. intros Hc.
  apply orb_true_iff in Hc. destruct Hc as [Hc|Hc];
    [apply orb_true_iff in Hc; destruct Hc as [Hc|Hc]|];
    apply Ascii.eqb_eq in Hc; subst c; repeat split; reflexivity.
Qed.

(** A run of digits followed by a stop is a number literal. *)
Lemma scan_plain_number (sign ds : string) (c : ascii) (t : string) :
  (sign = "" \/ sign = "-") ->
  scan_int (ds ++ String c t) = Some (ds, String c t) ->
  (forall d more, ds = String d more -> is_digit d = true) ->
  is_stop c = true ->
  scan_number (sign ++ ds ++ String c t) = Some (sign ++ ds, String c t).
Proof.
  intros Hsign Hint Hhead Hc.
  destruct (stop_facts c Hc) as (Hd & Hp & He & HE & _).
  assert (Htail : scan_number (ds ++ String c t) = Some (ds, String c t)
                  /\ scan_int (ds ++ String c t) = Some (ds, String c t)).
  { split; [|exact Hint]. unfold scan_number.
    destruct ds as [|d more].
    - unfold scan_int in Hint. cbn [append digits] in Hint.
      rewrite Hd in Hint. discriminate Hint.
    - cbn [append]. pose proof (Hhead d more eq_refl) as Hdig.
      assert (Ascii.eqb d "-" = false) as ->.
      { destruct (Ascii.eqb_spec d "-") as [->|]; [discriminate Hdig|reflexivity]. }
      change (String d (more ++ String c t)) with (String d more ++ String c t).
      rewrite Hint. unfold scan_frac, scan_exp. rewrite Hp, He, HE.
      cbn [orb append]. rewrite !append_nil_r. reflexivity. }
  destruct Hsign as [->| ->]; [exact (proj1 Htail)|].
  unfold scan_number. cbn [append].
  change (Ascii.eqb "-" "-") with true. cbn iota.
  rewrite Hint. unfold scan_frac, scan_exp. rewrite Hp, He, HE.
  cbn [orb append]. rewrite !append_nil_r. reflexivity.
Qed.

Lemma scan_int_uint (u : Decimal.uint) (c : ascii) (t : string) :
  match u with
  | Decimal.Nil => False
  | Decimal.D0 Decimal.Nil => True
  | Decimal.D0 _ => False
  | _ => True
  end ->
  is_stop c = true ->
  scan_int (NilEmpty.string_of_uint u ++ String c t)
  = Some (NilEmpty.string_of_uint u, String c t).
Proof.
  intros Hu Hc. unfold scan_int. rewrite digits_uint by exact Hc.
  destruct u as [|u|u|u|u|u|u|u|u|u|u]; try contradiction;
    cbn [NilEmpty.string_of_uint]; try reflexivity.
  destruct u; try contradiction. reflexivity.
Qed.

Lemma uint_head_digit (u : Decimal.uint) (d : ascii) (more : string) :
  NilEmpty.string_of_uint u = String d more -> is_digit d = true.
Proof.
  destruct u; cbn [NilEmpty.string_of_uint]; intros H;
    inversion H; subst; reflexivity.
Qed.

Lemma scan_number_Itoa (n : Z) (c : ascii) (t : string) :
  is_stop c = true ->
  scan_number (Itoa n ++ String c t) = Some (Itoa n, String c t).
Proof.
  intros Hc. unfold Itoa.
  assert (Hpos : forall p,
             scan_int (NilEmpty.string_of_uint (Pos.to_uint p) ++ String c t)
             = Some (NilEmpty.string_of_uint (Pos.to_uint p), String c t)).
  { intros p. apply scan_int_uint; [|exact Hc].
    pose proof (to_uint_head p) as H.
    destruct (Pos.to_uint p); try contradiction; exact I. }
  assert (Hnz : forall p, NilZero.string_of_uint (Pos.to_uint p)
                          = NilEmpty.string_of_uint (Pos.to_uint p)).
  { intros p. pose proof (to_uint_head p) as H.
    destruct (Pos.to_uint p); try contradiction; reflexivity. }
  destruct n as [|p|p]; cbn [Z.to_int NilZero.string_of_int].
  - apply (scan_plain_number "" "0" c t); auto.
    + unfold scan_int. cbn [append digits]. change (is_digit "0") with true.
      cbn iota. destruct (stop_facts c Hc) as (-> & _). reflexivity.
    + intros d more H. inversion H. reflexivity.
  - rewrite Hnz.
    apply (scan_plain_number "" _ c t); auto.
    intros d more H. apply (uint_head_digit _ _ _ H).
  - rewrite Hnz.
    apply (scan_plain_number "-" _ c t); auto.
    intros d more H. apply (uint_head_digit _ _ _ H).
Qed.

Lemma parse_value_scalar (f : nat) (c : ascii) (t : string) :
  is_ws c = false -> Ascii.eqb c "{" = false -> Ascii.eqb c "[" = false ->
  parse_value (S f) (String c t)
  = if Ascii.eqb c dquote then
      match parse_string (String c t) with
      | Some (v, rest) => Some (JString v, rest)
      | None => None
      end
    else if Ascii.eqb c "t"%char then
      option_map (fun r => (JBool true, r)) (strip_prefix "true" (String c t))
    else if Ascii.eqb c "f"%char then
      option_map (fun r => (JBool false, r)) (strip_prefix "false" (String c t))
    else if Ascii.eqb c "n"%char then
      option_map (fun r => (JNull, r)) (strip_prefix "null" (String c t))
    else
      match scan_number (String c t) with
      | Some (lit, rest) => Some (JNumber lit, rest)
      | None => None
      end.
Proof.
  intros Hws Ho Ha. cbn [parse_value skip_ws]. rewrite Hws, Ho, Ha. reflexivity.
Qed.

Lemma parse_value_string (f : nat) (s rest : string) :
  parse_value (S f) (appendString s ++ rest)
  = Some (JString (coerce_utf8 s), rest).
Proof.
  pose proof (parse_string_appendString s rest) as H.
  unfold appendString in *. cbn [append] in *.
  rewrite parse_value_scalar by reflexivity.
  rewrite Ascii.eqb_refl, H. reflexivity.
Qed.

Lemma scan_number_head (c : ascii) (t : string) (r : string * string) :
  scan_number (String c t) = Some r ->
  is_digit c = true \/ c = "-"%char.
Proof.
  intros H. destruct (is_digit c) eqn:Hd; [left; reflexivity|].
  destruct (Ascii.eqb_spec c "-") as [Hm|Hm]; [right; exact Hm|].
  exfalso. unfold scan_number in H.
  apply Ascii.eqb_neq in Hm. rewrite Hm in H.
  unfold scan_int in H. cbn [digits] in H. rewrite Hd in H. discriminate H.
Qed.

Lemma parse_value_number (f : nat) (s lit rest : string) :
  scan_number s = Some (lit, rest) ->
  parse_value (S f) s = Some (JNumber lit, rest).
Proof.
  intros H. destruct s as [|c t].
  { unfold scan_number, scan_int in H. cbn in H. discriminate H. }
  assert (Hc : is_digit c = true \/ c = "-"%char)
    by (eapply scan_number_head; exact H).
  assert (Hv : 48 <= byte_val c <= 57 \/ byte_val c = 45).
  { destruct Hc as [Hc| ->]; [left|right; reflexivity].
    unfold is_digit, in_range in Hc. lia. }
  rewrite parse_value_scalar.
  - rewrite !ascii_eqb_val, H; [reflexivity|..].
    + change (byte_val "n") with 110. lia.
    + change (byte_val "f") with 102. lia.
    + change (byte_val "t") with 116. lia.
    + change (byte_val dquote) with 34. lia.
  - unfold is_ws. lia.
  - apply ascii_eqb_val. change (byte_val "{") with 123. lia.
  - apply ascii_eqb_val. change (byte_val "[") with 91. lia.
Qed.

Lemma expect_here (c : ascii) (t : string) :
  is_ws c = false -> expect c (String c t) = Some t.
Proof.
  intros H. unfold expect. cbn [skip_ws]. rewrite H, Ascii.eqb_refl. reflexivity.
Qed.

Lemma expect_other (c c' : ascii) (t : string) :
  is_ws c' = false -> Ascii.eqb c' c = false -> expect c (String c' t) = None.
Proof.
  intros H H'. unfold expect. cbn [skip_ws]. rewrite H, H'. reflexivity.
Qed.

Lemma expect_quote (c : ascii) (s rest : string) :
  Ascii.eqb dquote c = false -> expect c (appendString s ++ rest) = None.
Proof.
  intros H. unfold appendString. cbn [append].
  apply expect_other; [reflexivity|exact H].
Qed.

Lemma join_cons2 (sep a b : string) (l : list string) :
  join sep (a :: b :: l) = a ++ sep ++ join sep (b :: l).
Proof. reflexivity. Qed.

Lemma parse_elements_S (f : nat) (s : string) :
  parse_elements (S f) s
  = match parse_value f s with
    | None => None
    | Some (v, s1) =>
        match expect ","%char s1 with
        | Some s2 =>
            match parse_elements f s2 with
            | Some (es, rest) => Some (v :: es, rest)
            | None => None
            end
        | None =>
            match expect "]"%char s1 with
            | Some rest => Some ([v], rest)
            | None => None
            end
        end
    end.
Proof. reflexivity. Qed.

Lemma parse_members_S (f : nat) (s : string) :
  parse_members (S f) s
  = match parse_string (skip_ws s) with
    | None => None
    | Some (k, s1) =>
        match expect ":"%char s1 with
        | None => None
        | Some s2 =>
            match parse_value f s2 with
            | None => None
            | Some (v, s3) =>
                match expect ","%char s3 with
                | Some s4 =>
                    match parse_members f s4 with
                    | Some (ms, rest) => Some ((k, v) :: ms, rest)
                    | None => None
                    end
                | None =>
                    match expect "}"%char s3 with
                    | Some rest => Some ([(k, v)], rest)
                    | None => None
                    end
                end
            end
        end
    end.
Proof. reflexivity. Qed.

Lemma parse_elements_strings (l : list string) :
  forall (s0 : string) (fuel : nat) (rest : string),
    (List.length l + 2 <= fuel)%nat ->
    parse_elements fuel
      (join "," (map appendString (s0 :: l)) ++ String "]" rest)
    = Some (JStrings (s0 :: l), rest).
Proof.
  induction l as [|b l IH]; intros s0 fuel rest Hf;
    destruct fuel as [|[|f]]; cbn [List.length] in Hf; try lia;
    rewrite parse_elements_S.
  - cbn [map join String.concat].
    rewrite parse_value_string.
    rewrite expect_other, expect_here by reflexivity. reflexivity.
  - cbn [map]. rewrite join_cons2, !append_assoc.
    rewrite parse_value_string. cbn [append].
    rewrite expect_here by reflexivity.
    change (appendString b :: map appendString l)
      with (map appendString (b :: l)).
    rewrite IH by lia. reflexivity.
Qed.

Lemma parse_value_array (f : nat) (t : string) :
  parse_value (S f) (String "[" t)
  = match expect "]" t with
    | Some t' => Some (JArray [], t')
    | None =>
        match parse_elements f t with
        | Some (es, rest) => Some (JArray es, rest)
        | None => None
        end
    end.
Proof. reflexivity. Qed.

Lemma parse_value_object (f : nat) (t : string) :
  parse_value (S f) (String "{" t)
  = match expect "}" t with
    | Some t' => Some (JObject [], t')
    | None =>
        match parse_members f t with
        | Some (ms, rest) => Some (JObject ms, rest)
        | None => None
        end
    end.
Proof. reflexivity. Qed.

Section ReadBack.

Variable FormatFloat : float -> string.

Hypothesis FormatFloat_number : number_printer FormatFloat.

Lemma parse_value_encoded (v : GoValue) (txt : string) (c : ascii)
  (t : string) (fuel : nat) :
  encode_value FormatFloat v = Ok txt ->
  is_stop c = true ->
  (value_fuel v <= fuel)%nat ->
  parse_value fuel (txt ++ String c t) = Some (denote_value FormatFloat v, String c t).
Proof.
  intros Henc Hc Hf. destruct fuel as [|f]; [destruct v; cbn in Hf; lia|].
  destruct v as [s|n|x|[|s0 l]]; cbn [denote_value].
  - cbn [encode_value] in Henc. injection Henc as <-.
    apply parse_value_string.
  - cbn [encode_value] in Henc. injection Henc as <-.
    apply parse_value_number, scan_number_Itoa, Hc.
  - cbn [encode_value] in Henc.
    destruct (PrimFloat.is_nan x) eqn:Hnan; [discriminate Henc|].
    destruct (PrimFloat.is_infinity x) eqn:Hinf; [discriminate Henc|].
    injection Henc as <-.
    apply parse_value_number, FormatFloat_number; assumption.
  - cbn [encode_value] in Henc. injection Henc as <-. reflexivity.
  - change (encode_value FormatFloat (VStrings (s0 :: l)))
      with (Ok ("[" ++ join "," (map appendString (s0 :: l)) ++ "]"))
      in Henc.
    assert (Htxt : txt = "[" ++ join "," (map appendString (s0 :: l)) ++ "]")
      by congruence.
    clear Henc. subst txt.
    change (("[" ++ join "," (map appendString (s0 :: l)) ++ "]")
            ++ String c t)
      with (String "[" ((join "," (map appendString (s0 :: l)) ++ "]")
                        ++ String c t)).
    rewrite parse_value_array, append_assoc.
    change ("]" ++ String c t) with (String "]" (String c t)).
    assert (He : expect "]" (join "," (map appendString (s0 :: l))
                             ++ String "]" (String c t)) = None).
    { destruct l; cbn [map join String.concat];
        [|rewrite append_assoc]; apply expect_quote; reflexivity. }
    rewrite He. cbn [value_fuel List.length] in Hf.
    rewrite parse_elements_strings by lia. reflexivity.
Qed.

Lemma sequence_cons_inv {A} (r : result A) (l : list (result A))
  (parts : list A) :
  sequence (r :: l) = Ok parts ->
  exists a ps, r = Ok a /\ sequence l = Ok ps /\ parts = a :: ps.
Proof.
  cbn [sequence]. destruct r as [a|e]; [|discriminate].
  destruct (sequence l) as [ps|e]; [|discriminate].
  intros H. exists a, ps. repeat split. congruence.
Qed.

Lemma encode_field_inv (f : Field) (part : string) :
  encode_field FormatFloat f = Ok part ->
  exists v, encode_value FormatFloat (value f) = Ok v
            /\ part = appendString (name f) ++ ":" ++ v.
Proof.
  unfold encode_field. destruct (encode_value FormatFloat (value f)) as [v|e];
    [|discriminate].
  intros H. exists v. split; congruence.
Qed.

(** A member written by the struct encoder reads back as its key and the
    value it denotes. *)
Lemma parse_member (f0 : Field) (v0 : string) (c : ascii) (t : string)
  (fuel : nat) :
  encode_value FormatFloat (value f0) = Ok v0 ->
  is_stop c = true ->
  (value_fuel (value f0) <= fuel)%nat ->
  parse_string (skip_ws (appendString (name f0)
                         ++ String ":" (v0 ++ String c t)))
  = Some (coerce_utf8 (name f0), String ":" (v0 ++ String c t))
  /\ parse_value fuel (v0 ++ String c t)
     = Some (denote_value FormatFloat (value f0), String c t).
Proof.
  intros Hv Hc Hf. split; [|apply parse_value_encoded; assumption].
  replace (skip_ws (appendString (name f0) ++ String ":" (v0 ++ String c t)))
    with (appendString (name f0) ++ String ":" (v0 ++ String c t))
    by (unfold appendString; reflexivity).
  apply parse_string_appendString.
Qed.

Lemma parse_members_fields (fs : list Field) :
  forall (f0 : Field) (parts : list string) (fuel : nat) (rest : string),
    sequence (map (encode_field FormatFloat) (f0 :: fs)) = Ok parts ->
    (members_fuel (f0 :: fs) <= fuel)%nat ->
    parse_members fuel (join "," parts ++ String "}" rest)
    = Some (map (denote_field FormatFloat) (f0 :: fs), rest).
Proof.
  induction fs as [|f1 fs IH]; intros f0 parts fuel rest Hseq Hf;
    destruct fuel as [|fuel]; cbn [members_fuel] in Hf; try lia;
    rewrite parse_members_S; rewrite map_cons in Hseq;
    apply sequence_cons_inv in Hseq;
    destruct Hseq as (part & ps & Hpart & Hps & ->);
    apply encode_field_inv in Hpart; destruct Hpart as (v0 & Hv0 & ->).
  - cbn [map sequence] in Hps. injection Hps as <-.
    cbn [join String.concat]. rewrite !append_assoc. cbn [append].
    destruct (parse_member f0 v0 "}" rest fuel Hv0 eq_refl) as [Hk Hv];
      [lia|].
    rewrite Hk, expect_here by reflexivity.
    rewrite Hv. rewrite expect_other, expect_here by reflexivity.
    reflexivity.
  - pose proof Hps as Hps'. rewrite map_cons in Hps'.
    apply sequence_cons_inv in Hps'.
    destruct Hps' as (p & ps' & _ & _ & ->).
    rewrite join_cons2, !append_assoc. cbn [append].
    destruct (parse_member f0 v0 ","
                (join "," (p :: ps') ++ String "}" rest) fuel Hv0 eq_refl)
      as [Hk Hv]; [lia|].
    rewrite Hk, expect_here by reflexivity.
    rewrite Hv. rewrite expect_here by reflexivity.
    rewrite (IH f1 (p :: ps') fuel rest Hps) by (cbn [members_fuel]; lia).
    reflexivity.
Qed.

Lemma length_appendString (s : string) :
  (2 <= String.length (appendString s))%nat.
Proof.
  unfold appendString. cbn [append String.length]. rewrite length_append.
  cbn [String.length]. lia.
Qed.

Lemma length_join_cons (sep a : string) (l : list string) :
  (String.length a + String.length (join sep l)
   <= String.length (join sep (a :: l)))%nat.
Proof.
  destruct l as [|b l]; [cbn; lia|].
  rewrite join_cons2, !length_append. lia.
Qed.

Lemma length_join_strings (l : list string) :
  (List.length l <= String.length (join "," (map appendString l)))%nat.
Proof.
  induction l as [|a l IH]; [cbn; lia|].
  cbn [map List.length].
  pose proof (length_join_cons "," (appendString a) (map appendString l)).
  pose proof (length_appendString a). lia.
Qed.

Lemma value_fuel_bound (v : GoValue) (txt : string) :
  encode_value FormatFloat v = Ok txt ->
  (value_fuel v <= String.length txt + 2)%nat.
Proof.
  destruct v as [s|n|x|[|s0 l]]; cbn [value_fuel]; try lia.
  - cbn [List.length]. lia.
  - change (encode_value FormatFloat (VStrings (s0 :: l)))
      with (Ok ("[" ++ join "," (map appendString (s0 :: l)) ++ "]")).
    intros H. assert (txt = "[" ++ join "," (map appendString (s0 :: l)) ++ "]")
      as -> by congruence.
    rewrite !length_append.
    pose proof (length_join_strings (s0 :: l)). cbn [String.length]. lia.
Qed.

Lemma members_fuel_bound (fs : list Field) :
  forall parts,
    sequence (map (encode_field FormatFloat) fs) = Ok parts ->
    (members_fuel fs <= String.length (join "," parts))%nat.
Proof.
  induction fs as [|f fs IH]; intros parts Hseq; [cbn; lia|].
  rewrite map_cons in Hseq. apply sequence_cons_inv in Hseq.
  destruct Hseq as (part & ps & Hpart & Hps & ->).
  apply encode_field_inv in Hpart. destruct Hpart as (v & Hv & ->).
  pose proof (IH ps Hps). pose proof (value_fuel_bound _ _ Hv).
  pose proof (length_join_cons "," (appendString (name f) ++ ":" ++ v) ps) as Hj.
  rewrite !length_append in Hj. cbn [String.length] in Hj.
  pose proof (length_appendString (name f)).
  cbn [members_fuel]. lia.
Qed.

(** A marshalled request reads back as the object of its members. *)
Lemma parse_json_marshal (r : Request) (payload : string) :
  json_Marshal FormatFloat r = Ok payload ->
  parse_json payload = Some (JObject (map (denote_field FormatFloat) (encoded_fields r))).
Proof.
  unfold json_Marshal.
  destruct (sequence (map (encode_field FormatFloat) (encoded_fields r)))
    as [parts|e] eqn:Hseq; [|discriminate].
  intros H. assert (payload = "{" ++ join "," parts ++ "}") as -> by congruence.
  clear H. pose proof (members_fuel_bound _ _ Hseq) as Hfuel.
  assert (Hne : exists f0 fs, encoded_fields r = f0 :: fs).
  { unfold encoded_fields, Request_fields. cbn [filter omitEmpty andb negb].
    eauto. }
  destruct Hne as (f0 & fs & Heq). rewrite Heq in *.
  unfold parse_json.
  change ("{" ++ join "," parts ++ "}") with (String "{" (join "," parts ++ "}")).
  cbn [String.length]. rewrite parse_value_object.
  assert (He : expect "}" (join "," parts ++ "}") = None).
  { rewrite map_cons in Hseq. apply sequence_cons_inv in Hseq.
    destruct Hseq as (part & ps & Hpart & _ & ->).
    apply encode_field_inv in Hpart. destruct Hpart as (v & _ & ->).
    destruct ps; cbn [join String.concat]; rewrite !append_assoc;
      apply expect_quote; reflexivity. }
  rewrite He.
  rewrite (parse_members_fields fs f0 parts _ "" Hseq)
    by (rewrite length_append; lia).
  reflexivity.
Qed.

End ReadBack.

Lemma mock_FormatFloat_number : number_printer mock_FormatFloat.
Proof.
  intros f c t _ _ Hc. unfold mock_FormatFloat, is_stop in *.
  apply orb_true_iff in Hc. destruct Hc as [Hc|Hc];
    [apply orb_true_iff in Hc; destruct Hc as [Hc|Hc]|];
    apply Ascii.eqb_eq in Hc; subst c; reflexivity.
Qed.

Section Payload.

Variable E : Env.
Variable FormatFloat : float -> string.

(** The member [key] of a marshalled request, read from the payload. *)
Lemma payload_field_marshal (r : Request) (payload key : string) :
  number_printer FormatFloat ->
  json_Marshal FormatFloat r = Ok payload ->
  payload_field payload key
  = lookup key (map (denote_field FormatFloat) (encoded_fields r)).
Proof.
  intros Hff Hm. unfold payload_field.
  rewrite (parse_json_marshal FormatFloat Hff r payload Hm). reflexivity.
Qed.

(** C1, for prompts that are valid UTF-8: in the payload [Generate] sends,
    read as JSON, the member [prompt] is the first prompt set in the
    Human/Assistant template, with no other change; it is also the member
    the payload opens with. *)
Theorem Generate_prompt_member (m : Model) (x : string) (rest : list string)
  (options : list CallOption) (h : Trace)
  (c : Client) (input : InvokeModelInput) (ans : result string) :
  number_printer FormatFloat ->
  ValidString x = true ->
  In (EvInvokeModel c input ans)
     (events (Generate E FormatFloat m (x :: rest) options h)) ->
  payload_field (Body input) "prompt" = Some (JString (human_assistant x))
  /\ leading_prompt (Body input) = Some (human_assistant x).
Proof.
  intros Hff Hvalid Hin.
  apply Generate_dispatch in Hin. destruct Hin as (p & ps & Heq & Hm).
  injection Heq as <- <-.
  rewrite (leading_prompt_marshal _ _ _ Hm).
  rewrite (payload_field_marshal _ _ _ Hff Hm).
  unfold encoded_fields, Request_fields, denote_field.
  cbn [filter omitEmpty andb negb map denote_value name value
         build_request Prompt].
  change (coerce_utf8 "prompt") with "prompt".
  cbn [lookup String.eqb Ascii.eqb Bool.eqb]. rewrite Sprintf_format.
  rewrite coerce_human_assistant by exact Hvalid. split; reflexivity.
Qed.

(** The members of a marshalled request, read from the payload. *)
Lemma marshal_members (r : Request) (payload : string) :
  number_printer FormatFloat ->
  json_Marshal FormatFloat r = Ok payload ->
  payload_field payload "prompt" = Some (JString (coerce_utf8 (Prompt r)))
  /\ payload_field payload "max_tokens_to_sample"
     = Some (JNumber (Itoa (MaxTokensToSample r)))
  /\ payload_field payload "temperature"
     = (if PrimFloat.eqb (Temperature r) 0%float then None
        else Some (JNumber (FormatFloat (Temperature r))))
  /\ payload_field payload "top_p"
     = (if PrimFloat.eqb (TopP r) 0%float then None
        else Some (JNumber (FormatFloat (TopP r))))
  /\ payload_field payload "top_k"
     = (if TopK r =? 0 then None else Some (JNumber (Itoa (TopK r))))
  /\ payload_field payload "stop_sequences"
     = match StopSequences r with
       | [] => None
       | l => Some (JArray (JStrings l))
       end.
Proof.
  intros Hff Hm. rewrite !(payload_field_marshal _ _ _ Hff Hm).
  unfold encoded_fields, Request_fields, denote_field.
  cbn [filter omitEmpty value isEmptyValue andb negb].
  destruct (PrimFloat.eqb (Temperature r) 0%float);
    destruct (PrimFloat.eqb (TopP r) 0%float);
    destruct (TopK r =? 0);
    destruct (StopSequences r) as [|s0 ss];
    cbn [List.length Nat.eqb negb map denote_value name value];
    change (coerce_utf8 "prompt") with "prompt";
    change (coerce_utf8 "max_tokens_to_sample") with "max_tokens_to_sample";
    change (coerce_utf8 "temperature") with "temperature";
    change (coerce_utf8 "top_p") with "top_p";
    change (coerce_utf8 "top_k") with "top_k";
    change (coerce_utf8 "stop_sequences") with "stop_sequences";
    cbn [lookup String.eqb Ascii.eqb Bool.eqb];
    repeat split; reflexivity.
Qed.

(** C10: in every payload [Generate] sends, read as JSON, [prompt] and
    [max_tokens_to_sample] are present, while [temperature], [top_p],
    [top_k] and [stop_sequences] are absent exactly when the option they come
    from has the zero value (0, 0.0, no stop word); so a caller cannot
    transmit a temperature, top_p or top_k of 0. *)
Theorem omitempty_members (m : Model) (prompts : list string)
  (options : list CallOption) (h : Trace)
  (c : Client) (input : InvokeModelInput) (ans : result string) :
  number_printer FormatFloat ->
  In (EvInvokeModel c input ans)
     (events (Generate E FormatFloat m prompts options h)) ->
  let opts := apply_options options in
  (exists p, payload_field (Body input) "prompt" = Some (JString p))
  /\ payload_field (Body input) "max_tokens_to_sample"
     = Some (JNumber (Itoa (MaxTokens opts)))
  /\ payload_field (Body input) "temperature"
     = (if PrimFloat.eqb (opt_Temperature opts) 0%float then None
        else Some (JNumber (FormatFloat (opt_Temperature opts))))
  /\ payload_field (Body input) "top_p"
     = (if PrimFloat.eqb (opt_TopP opts) 0%float then None
        else Some (JNumber (FormatFloat (opt_TopP opts))))
  /\ payload_field (Body input) "top_k"
     = (if opt_TopK opts =? 0 then None
        else Some (JNumber (Itoa (opt_TopK opts))))
  /\ payload_field (Body input) "stop_sequences"
     = match StopWords opts with
       | [] => None
       | l => Some (JArray (JStrings l))
       end.
Proof.
  intros Hff Hin opts.
  apply Generate_dispatch in Hin. destruct Hin as (p & ps & _ & Hm).
  destruct (marshal_members _ _ Hff Hm) as (Hp & Hmax & Ht & Hpp & Hk & Hs).
  split; [eexists; exact Hp|].
  split; [exact Hmax|]. split; [exact Ht|]. split; [exact Hpp|].
  split; [exact Hk|exact Hs].
Qed.

End Payload.

(** ** Concrete runs *)

(** The payload sent for the prompt [X] with no options, read as JSON. *)
Example payload_for_X :
  parse_json (payload_for "X")
  = Some (JObject [("prompt", JString (human_assistant "X"));
                   ("max_tokens_to_sample", JNumber "0")]).
Proof. vm_compute. reflexivity. Qed.

(** The payload of [main]'s options carries the temperature. *)
Example payload_with_options :
  option_map (map fst)
    (match json_Marshal mock_FormatFloat
             (build_request "X"
                (apply_options
                   [WithMaxTokens 500; WithTemperature 0x1.999999999999ap-4%float]))
     with
     | Ok s => match parse_json s with Some (JObject ms) => Some ms | _ => None end
     | Err _ => None
     end)
  = Some ["prompt"; "max_tokens_to_sample"; "temperature"].
Proof. vm_compute. reflexivity. Qed.

(** Stop words are written as an array, HTML-sensitive bytes escaped. *)
Example payload_with_stop_words :
  match json_Marshal mock_FormatFloat
          (build_request "X" (apply_options [WithStopWords ["a"; "<b>"]]))
  with
  | Ok s => payload_field s "stop_sequences"
  | Err _ => None
  end
  = Some (JArray [JString "a"; JString "<b>"]).
Proof. vm_compute. reflexivity. Qed.

(** A temperature that is not a number cannot be marshalled. *)
Example payload_with_nan :
  json_Marshal mock_FormatFloat
    (build_request "X" (apply_options [WithTopP PrimFloat.nan]))
  = Err "json: unsupported value: NaN".
Proof. vm_compute. reflexivity. Qed.

Lemma Generate_prompt_member_witness :
  number_printer mock_FormatFloat
  /\ ValidString "X" = true
  /\ payload_field (Body (mock_input "X")) "prompt"
     = Some (JString (human_assistant "X"))
  /\ leading_prompt (Body (mock_input "X")) = Some (human_assistant "X").
Proof.
  split; [exact mock_FormatFloat_number|]. split; [reflexivity|].
  apply (Generate_prompt_member mock_env mock_FormatFloat (mock_model None)
           "X" [] [] [] mock_client (mock_input "X") (Ok hello_body)).
  - exact mock_FormatFloat_number.
  - reflexivity.
  - left. reflexivity.
Defined.

Lemma omitempty_members_witness :
  number_printer mock_FormatFloat
  /\ In (EvInvokeModel mock_client options_input (Ok hello_body))
        (events (Generate mock_env mock_FormatFloat (mock_model None) ["X"]
                   main_options_top_k_0 []))
  /\ payload_field (Body options_input) "max_tokens_to_sample"
     = Some (JNumber "500")
  /\ payload_field (Body options_input) "temperature" = Some (JNumber "0.1")
  /\ payload_field (Body options_input) "top_p" = None
  /\ payload_field (Body options_input) "top_k" = None
  /\ payload_field (Body options_input) "stop_sequences" = None.
Proof.
  split; [exact mock_FormatFloat_number|]. split; [left; reflexivity|].
  destruct (omitempty_members mock_env mock_FormatFloat (mock_model None)
              ["X"] main_options_top_k_0 [] mock_client options_input
              (Ok hello_body) mock_FormatFloat_number (or_introl eq_refl))
    as (_ & Hmax & Htemp & Hp & Hk & Hs).
  repeat split; assumption.
Defined.

(** C1 as stated fails on a prompt that is not valid UTF-8: the byte [0xFF]
    is sent as U+FFFD, so the member [prompt] differs from the template
    filled with the prompt. *)
Lemma prompt_member_altered :
  In (EvInvokeModel mock_client (mock_input bad_prompt) (Ok hello_body))
     (events (Generate mock_env mock_FormatFloat (mock_model None)
                [bad_prompt] [] []))
  /\ leading_prompt (Body (mock_input bad_prompt))
     = Some (human_assistant replacement)
  /\ payload_field (Body (mock_input bad_prompt)) "prompt"
     = Some (JString (human_assistant replacement))
  /\ leading_prompt (Body (mock_input bad_prompt))
     <> Some (human_assistant bad_prompt).
Proof.
  split; [left; reflexivity|].
  split; [vm_compute; reflexivity|].
  split; [vm_compute; reflexivity|].
  vm_compute. intros H. discriminate H.
Qed.

Lemma Generate_returns_completion_witness :
  In (EvInvokeModel mock_client (mock_input "X") (Ok hello_body))
     (events (Generate mock_env mock_FormatFloat (mock_model None) ["X"] [] []))
  /\ json_Unmarshal hello_body zero_Response = ({| Completion := "hello" |}, None)
  /\ outcome (Generate mock_env mock_FormatFloat (mock_model None) ["X"] [] [])
     = Returned (Ok [ {| Text := "hello" |} ]).
Proof.
  split; [left; reflexivity|]. split; [reflexivity|].
  apply (Generate_returns_completion mock_env mock_FormatFloat
           (mock_model None) ["X"] [] [] mock_client (mock_input "X")
           hello_body {| Completion := "hello" |}).
  - left. reflexivity.
  - reflexivity.
Defined.

Lemma Generate_one_generation_witness :
  List.length [ {| Text := "hello" |} ] = 1%nat
  /\ count is_invoke
       (events (Generate mock_env mock_FormatFloat (mock_model (Some 7%nat))
                  ["X"] [] []))
     = 1%nat.
Proof.
  apply (Generate_one_generation mock_env mock_FormatFloat
           (mock_model (Some 7%nat)) ["X"] [] [] [ {| Text := "hello" |} ]).
  reflexivity.
Defined.

Lemma Generate_deterministic_witness :
  outcome (Generate mock_env mock_FormatFloat (mock_model None) ["X"] [] [])
  = outcome (Generate mock_env mock_FormatFloat (mock_model None) ["X"] []
               [EvStdout "earlier"])
  /\ events (Generate mock_env mock_FormatFloat (mock_model None) ["X"] [] [])
     = events (Generate mock_env mock_FormatFloat (mock_model None) ["X"] []
                 [EvStdout "earlier"]).
Proof.
  apply (Generate_deterministic mock_env mock_FormatFloat (mock_model None)
           ["X"] [] [] [EvStdout "earlier"]).
  intros t1 t2 c i. reflexivity.
Defined.

Lemma fetch_ignores_status_witness :
  In (EvHTMLLoad "<html>article</html>" (Ok mock_docs))
     (events (getDocsFromLink mock_env_404 article_link []))
  /\ outcome (getDocsFromLink mock_env_404 article_link [])
     = Returned (Ok mock_docs).
Proof.
  apply (fetch_ignores_status mock_env_404 article_link article_link [] 404
           "<html>article</html>").
  right. left. reflexivity.
Defined.

Lemma fetch_parse_failure_exits_witness :
  outcome (getDocsFromLink mock_env_bad_html article_link []) = Exited 1
  /\ In (EvLogFatal "unexpected EOF")
        (events (getDocsFromLink mock_env_bad_html article_link []))
  /\ count is_close
       (events (getDocsFromLink mock_env_bad_html article_link []))
     = 0%nat.
Proof.
  apply (fetch_parse_failure_exits mock_env_bad_html article_link [] "<html"
           "unexpected EOF").
  right. right. left. reflexivity.
Defined.



(** * Further properties of the code *)

(** ** [Generate] and [getResponse] *)

(** Every case of a run of [Generate], with its handler, in the context. *)
Ltac run_cases m prompts :=
  rewrite Generate_run in *; cbv zeta in *;
  unfold start_events, end_events, outcome, events, count in *;
  destruct (CallbacksHandler m) as [hd|];
  destruct prompts as [|p ps]; cbn [fst snd app] in *;
  try destruct (json_Marshal _ _) as [payload|merr] eqn:Hmarshal;
  cbn [fst snd app] in *;
  try destruct (bedrock_InvokeModel _ _ _ _) as [body'|ierr] eqn:Hinvoke;
  cbn [fst snd app] in *;
  try destruct (json_Unmarshal _ _) as [resp' [uerr|]] eqn:Hdecode;
  cbn [fst snd app] in *.

(** What is left of a membership in a short trace. *)
Ltac pick_event :=
  repeat match goal with
    | H : In _ _ |- _ => simpl in H
    | H : False |- _ => destruct H
    | H : _ \/ _ |- _ => destruct H
    | H : _ = EvInvokeModel _ _ _ |- _ =>
        try discriminate H; injection H as ? ? ?
    end; subst.

Section MoreGenerate.

Variable E : Env.
Variable FormatFloat : float -> string.

(** The result of a call whose request the endpoint answered with a body. *)
Lemma Generate_answered (m : Model) (prompts : list string)
  (options : list CallOption) (h : Trace)
  (c : Client) (input : InvokeModelInput) (body : string) :
  In (EvInvokeModel c input (Ok body))
     (events (Generate E FormatFloat m prompts options h)) ->
  outcome (Generate E FormatFloat m prompts options h)
  = match json_Unmarshal body zero_Response with
    | (resp, None) => Returned (Ok [ {| Text := Completion resp |} ])
    | (_, Some err) => Returned (Err err)
    end
  /\ (forall resp err, json_Unmarshal body zero_Response = (resp, Some err) ->
      count is_end (events (Generate E FormatFloat m prompts options h)) = 0%nat).
Proof.
  intros Hin.
  run_cases m prompts; pick_event;
    match goal with
    | H : json_Unmarshal _ _ = _ |- _ => rewrite H
    end; (split; [reflexivity|]); intros r e He; try reflexivity;
    discriminate He.
Qed.

(** X2: an error of the endpoint is returned as it is, after a single
    request and without the end notification. *)
Theorem Generate_endpoint_error (m : Model) (prompts : list string)
  (options : list CallOption) (h : Trace)
  (c : Client) (input : InvokeModelInput) (err : error) :
  In (EvInvokeModel c input (Err err))
     (events (Generate E FormatFloat m prompts options h)) ->
  outcome (Generate E FormatFloat m prompts options h) = Returned (Err err)
  /\ count is_invoke (events (Generate E FormatFloat m prompts options h)) = 1%nat
  /\ count is_end (events (Generate E FormatFloat m prompts options h)) = 0%nat.
Proof.
  intros Hin. run_cases m prompts; pick_event; try discriminate;
    repeat split; reflexivity.
Qed.


(** A type error, once remembered, is the error of the decoding. *)
Lemma decode_members_saved (ms : list (string * JSON)) :
  forall (r : Response) (e : error),
    snd (decode_members ms r (Some e)) = Some e.
Proof.
  induction ms as [|[k v] ms IH]; intros r e; [reflexivity|].
  cbn [decode_members]. destruct (is_completion_key k); [|apply IH].
  destruct v; apply IH.
Qed.


Lemma decode_members_bad_value (ms : list (string * JSON)) :
  forall (r : Response) (s : option error) (k : string) (v : JSON),
    In (k, v) ms -> is_completion_key k = true ->
    not_string_nor_null v = true ->
    exists e, snd (decode_members ms r s) = Some e.
Proof.
  induction ms as [|[k' v'] ms IH]; intros r s k v Hin Hk Hv; [destruct Hin|].
  cbn [decode_members]. destruct Hin as [Heq|Hin].
  - injection Heq as -> ->. rewrite Hk.
    destruct v; try discriminate Hv;
      (destruct s as [e|]; [exists e|eexists]; apply decode_members_saved).
  - destruct (is_completion_key k'); [|eapply IH; eassumption].
    destruct v'; eapply IH; eassumption.
Qed.

(** X3: a body that is not a JSON text, or is a JSON value other than an
    object or [null], makes [Generate] return an error, without the end
    notification. *)
Theorem Generate_malformed_body (m : Model) (prompts : list string)
  (options : list CallOption) (h : Trace)
  (c : Client) (input : InvokeModelInput) (body : string) :
  In (EvInvokeModel c input (Ok body))
     (events (Generate E FormatFloat m prompts options h)) ->
  match parse_json body with
  | Some (JObject _) | Some JNull => False
  | _ => True
  end ->
  (exists err,
      outcome (Generate E FormatFloat m prompts options h) = Returned (Err err))
  /\ count is_end (events (Generate E FormatFloat m prompts options h)) = 0%nat.
Proof.
  intros Hin Hbad. destruct (Generate_answered m prompts options h c input body Hin)
    as [Hout Hend].
  assert (Hun : exists e, json_Unmarshal body zero_Response
                          = (zero_Response, Some e)).
  { unfold json_Unmarshal. destruct (parse_json body) as [[]|];
      try contradiction; eexists; reflexivity. }
  destruct Hun as [e Hun]. rewrite Hun in Hout. split; [exists e; exact Hout|].
  eapply Hend, Hun.
Qed.


(** X5: a member addressing [completion] whose value is neither a string nor
    [null] makes [Generate] return an error, whatever else the object
    holds. *)
Theorem Generate_completion_not_string (m : Model) (prompts : list string)
  (options : list CallOption) (h : Trace)
  (c : Client) (input : InvokeModelInput) (body : string)
  (ms : list (string * JSON)) (k : string) (v : JSON) :
  In (EvInvokeModel c input (Ok body))
     (events (Generate E FormatFloat m prompts options h)) ->
  parse_json body = Some (JObject ms) ->
  In (k, v) ms -> is_completion_key k = true ->
  not_string_nor_null v = true ->
  exists err,
    outcome (Generate E FormatFloat m prompts options h) = Returned (Err err).
Proof.
  intros Hin Hparse Hkv Hk Hv.
  destruct (Generate_answered m prompts options h c input body Hin) as [Hout _].
  unfold json_Unmarshal in Hout. rewrite Hparse in Hout.
  destruct (decode_members_bad_value ms zero_Response None k v Hkv Hk Hv)
    as [e He].
  destruct (decode_members ms zero_Response None) as [resp s].
  cbn [snd] in He. subst s. exists e. exact Hout.
Qed.

End MoreGenerate.

(** An object written member by member reads back as its members. *)
Lemma parse_json_object (FormatFloat : float -> string) (f0 : Field)
  (fs : list Field) (parts : list string) :
  number_printer FormatFloat ->
  sequence (map (encode_field FormatFloat) (f0 :: fs)) = Ok parts ->
  parse_json ("{" ++ join "," parts ++ "}")
  = Some (JObject (map (denote_field FormatFloat) (f0 :: fs))).
Proof.
  intros Hff Hseq.
  pose proof (members_fuel_bound FormatFloat _ _ Hseq) as Hfuel.
  unfold parse_json.
  change ("{" ++ join "," parts ++ "}") with (String "{" (join "," parts ++ "}")).
  cbn [String.length]. rewrite parse_value_object.
  assert (He : expect "}" (join "," parts ++ "}") = None).
  { rewrite map_cons in Hseq. apply sequence_cons_inv in Hseq.
    destruct Hseq as (part & ps & Hpart & _ & ->).
    apply encode_field_inv in Hpart. destruct Hpart as (v & _ & ->).
    destruct ps; cbn [join String.concat]; rewrite !append_assoc;
      apply expect_quote; reflexivity. }
  rewrite He.
  rewrite (parse_members_fields FormatFloat Hff fs f0 parts _ "" Hseq)
    by (rewrite length_append; lia).
  reflexivity.
Qed.

Lemma coerce_valid (s : string) : ValidString s = true -> coerce_utf8 s = s.
Proof.
  intros H. pose proof (coerce_app_valid s "" H) as Happ.
  rewrite append_nil_r in Happ. rewrite Happ. apply append_nil_r.
Qed.

(** The body written for a response decodes to its completion. *)
Lemma json_Unmarshal_completion_body (text : string) :
  json_Unmarshal (completion_body text) zero_Response
  = ({| Completion := coerce_utf8 text |}, None).
Proof.
  unfold json_Unmarshal, completion_body.
  pose proof (parse_json_object mock_FormatFloat
                {| name := "completion"; omitEmpty := false;
                   value := VString text |} []
                [appendString "completion" ++ ":" ++ appendString text]
                mock_FormatFloat_number eq_refl) as H.
  cbn [join String.concat] in H. rewrite !append_assoc in H.
  rewrite H. reflexivity.
Qed.

Section MoreGenerate2.

Variable E : Env.
Variable FormatFloat : float -> string.

(** X6: when the endpoint answers with the body [{"completion":c}] written
    for a text [c] that is valid UTF-8, whatever bytes [c] holds (quotes,
    backslashes, control bytes, HTML-sensitive bytes), [Generate] returns
    exactly [c]. *)
Theorem Generate_completion_round_trip (m : Model) (prompts : list string)
  (options : list CallOption) (h : Trace)
  (c : Client) (input : InvokeModelInput) (text : string) :
  ValidString text = true ->
  In (EvInvokeModel c input (Ok (completion_body text)))
     (events (Generate E FormatFloat m prompts options h)) ->
  outcome (Generate E FormatFloat m prompts options h)
  = Returned (Ok [ {| Text := text |} ]).
Proof.
  intros Hvalid Hin.
  destruct (Generate_answered E FormatFloat m prompts options h c input _ Hin)
    as [Hout _].
  rewrite json_Unmarshal_completion_body in Hout.
  cbn [Completion] in Hout. rewrite (coerce_valid _ Hvalid) in Hout.
  exact Hout.
Qed.

(** X7: [Generate] never ends the process and never writes to standard
    output; it sends at most one request, and it panics exactly on the empty
    prompt list. *)
Theorem Generate_returns_or_panics (m : Model) (prompts : list string)
  (options : list CallOption) (h : Trace) :
  (forall code,
      outcome (Generate E FormatFloat m prompts options h) <> Exited code)
  /\ stdout (events (Generate E FormatFloat m prompts options h)) = []
  /\ (count is_invoke (events (Generate E FormatFloat m prompts options h))
      <= 1)%nat
  /\ ((exists msg,
          outcome (Generate E FormatFloat m prompts options h) = Panicked msg)
      <-> prompts = []).
Proof.
  run_cases m prompts;
    (split; [intros code; discriminate|]);
    (split; [reflexivity|]); (split; [cbn; lia|]);
    (split; [intros [msg Hmsg]; try reflexivity; discriminate Hmsg
            |intros Hnil; try discriminate Hnil; eexists; reflexivity]).
Qed.

(** X8: against an endpoint that answers a request in one way, the prompts
    after the first change neither the request sent nor the result. *)
Theorem Generate_first_prompt_only (m : Model) (p : string)
  (ps : list string) (options : list CallOption) (h : Trace) :
  deterministic_endpoint E ->
  dispatched (events (Generate E FormatFloat m (p :: ps) options h))
  = dispatched (events (Generate E FormatFloat m [p] options h))
  /\ outcome (Generate E FormatFloat m (p :: ps) options h)
     = outcome (Generate E FormatFloat m [p] options h).
Proof.
  intros Hdet. rewrite !Generate_run. cbv zeta.
  destruct (json_Marshal _ _) as [payload|merr].
  - rewrite (Hdet (h ++ start_events m (p :: ps))%list
                  (h ++ start_events m [p])%list).
    unfold start_events, end_events, outcome, events.
    destruct (CallbacksHandler m) as [hd|];
      destruct (bedrock_InvokeModel _ _ _ _) as [body|ierr];
      cbn [fst snd app dispatched];
      try destruct (json_Unmarshal _ _) as [resp [uerr|]];
      cbn [fst snd app dispatched]; split; reflexivity.
  - unfold start_events, outcome, events.
    destruct (CallbacksHandler m); split; reflexivity.
Qed.

End MoreGenerate2.

(** ** Marshalling and floats *)

(** A float that compares equal to zero is neither a NaN nor an infinity, so
    a field left out by [omitempty] never hides a refused value. *)
Lemma eqb_zero_finite (f : float) :
  PrimFloat.eqb f 0%float = true -> non_finite f = false.
Proof.
  unfold non_finite, PrimFloat.is_nan, PrimFloat.is_infinity.
  rewrite !FloatAxioms.eqb_spec, FloatAxioms.abs_spec.
  change (Prim2SF 0%float) with (S754_zero false).
  change (Prim2SF infinity) with (S754_infinity false).
  destruct (Prim2SF f) as [s|s| |s m e]; cbn; intros H;
    try discriminate H; try (destruct s; discriminate H); reflexivity.
Qed.

Lemma encode_float (FormatFloat : float -> string) (f : float) :
  encode_value FormatFloat (VFloat f)
  = if non_finite f
    then Err (if PrimFloat.is_nan f then "json: unsupported value: NaN"
              else if PrimFloat.ltb f 0%float
                   then "json: unsupported value: -Inf"
                   else "json: unsupported value: +Inf")
    else Ok (FormatFloat f).
Proof.
  unfold non_finite. cbn [encode_value].
  destruct (PrimFloat.is_nan f); [reflexivity|].
  destruct (PrimFloat.is_infinity f); reflexivity.
Qed.

(** Marshalling a request fails exactly when its temperature or its top_p is
    a NaN or an infinity. *)
Lemma json_Marshal_fails_iff (FormatFloat : float -> string) (r : Request) :
  (exists err, json_Marshal FormatFloat r = Err err)
  <-> non_finite (Temperature r) || non_finite (TopP r) = true.
Proof.
  unfold json_Marshal, encoded_fields, Request_fields.
  cbn [filter omitEmpty value isEmptyValue andb negb].
  destruct (PrimFloat.eqb (Temperature r) 0%float) eqn:HT;
    destruct (PrimFloat.eqb (TopP r) 0%float) eqn:HP;
    try rewrite (eqb_zero_finite _ HT); try rewrite (eqb_zero_finite _ HP);
    destruct (TopK r =? 0); destruct (StopSequences r) as [|s0 ss];
    cbn [List.length Nat.eqb negb map sequence];
    unfold encode_field; cbn [value]; rewrite ?encode_float;
    cbn [encode_value orb];
    try destruct (non_finite (Temperature r));
    try destruct (non_finite (TopP r));
    cbn [sequence orb];
    (split; [intros [err Herr]; try reflexivity; discriminate Herr
            |intros Hb; try discriminate Hb; eexists; reflexivity]).
Qed.

Section MoreGenerate3.

Variable E : Env.
Variable FormatFloat : float -> string.

(** X9: a temperature or top_p that is a NaN or an infinity is refused before
    anything is sent: [Generate] returns an error, the endpoint is not
    contacted and no end notification is sent. *)
Theorem Generate_refuses_non_finite (m : Model) (p : string)
  (ps : list string) (options : list CallOption) (h : Trace) :
  non_finite (opt_Temperature (apply_options options))
  || non_finite (opt_TopP (apply_options options)) = true ->
  (exists err,
      outcome (Generate E FormatFloat m (p :: ps) options h)
      = Returned (Err err))
  /\ count is_invoke (events (Generate E FormatFloat m (p :: ps) options h))
     = 0%nat
  /\ count is_end (events (Generate E FormatFloat m (p :: ps) options h))
     = 0%nat.
Proof.
  intros Hbad.
  destruct (proj2 (json_Marshal_fails_iff FormatFloat
                     (build_request p (apply_options options))) Hbad)
    as [err Herr].
  rewrite Generate_run. cbv zeta. rewrite Herr.
  unfold start_events, outcome, events, count.
  destruct (CallbacksHandler m); (split; [exists err; reflexivity|]);
    split; reflexivity.
Qed.

(** X10: with a prompt and finite sampling parameters, exactly one request is
    sent, whatever the options are otherwise. *)
Theorem Generate_dispatches_once (m : Model) (p : string)
  (ps : list string) (options : list CallOption) (h : Trace) :
  non_finite (opt_Temperature (apply_options options))
  || non_finite (opt_TopP (apply_options options)) = false ->
  count is_invoke (events (Generate E FormatFloat m (p :: ps) options h))
  = 1%nat.
Proof.
  intros Hfin. rewrite Generate_run. cbv zeta.
  destruct (json_Marshal FormatFloat (build_request p (apply_options options)))
    as [payload|err] eqn:Hm.
  - unfold start_events, end_events, outcome, events, count.
    destruct (CallbacksHandler m);
      destruct (bedrock_InvokeModel _ _ _ _);
      try destruct (json_Unmarshal _ _) as [resp [uerr|]]; reflexivity.
  - exfalso.
    pose proof (proj1 (json_Marshal_fails_iff FormatFloat
                         (build_request p (apply_options options)))
                  (ex_intro _ err Hm)) as Hbad.
    cbn [build_request Temperature TopP] in Hbad.
    rewrite Hfin in Hbad. discriminate Hbad.
Qed.

(** X11: [Call] always returns: it hands on the text of the one generation or
    the error of [Generate], with the same events, and never panics. *)
Theorem Call_follows_Generate (m : Model) (p : string)
  (options : list CallOption) (h : Trace) :
  events (Call E FormatFloat m p options h)
  = events (Generate E FormatFloat m [p] options h)
  /\ (exists r, outcome (Call E FormatFloat m p options h) = Returned r)
  /\ (forall text,
         outcome (Call E FormatFloat m p options h) = Returned (Ok text)
         <-> outcome (Generate E FormatFloat m [p] options h)
             = Returned (Ok [ {| Text := text |} ]))
  /\ (forall err,
         outcome (Call E FormatFloat m p options h) = Returned (Err err)
         <-> outcome (Generate E FormatFloat m [p] options h)
             = Returned (Err err)).
Proof.
  unfold Call, Call_with, bind, ret. rewrite Generate_run. cbv zeta.
  unfold start_events, end_events, outcome, events.
  destruct (CallbacksHandler m) as [hd|];
    destruct (json_Marshal _ _) as [payload|merr]; cbn [fst snd app];
    try destruct (bedrock_InvokeModel _ _ _ _) as [body|ierr];
    cbn [fst snd app];
    try destruct (json_Unmarshal _ _) as [[text0] [uerr|]];
    cbn [fst snd app Text Completion];
    (split; [rewrite ?app_nil_r; reflexivity|]);
    (split; [eexists; reflexivity|]);
    split; intros x; split; intros Hx; congruence.
Qed.

End MoreGenerate3.

Section MorePayload.

Variable E : Env.
Variable FormatFloat : float -> string.

(** X1: every payload [Generate] sends is a well-formed JSON object: it
    parses, its keys are distinct names of [Request] in declaration order,
    and it has between two and six members. *)
Theorem Generate_payload_well_formed (m : Model) (prompts : list string)
  (options : list CallOption) (h : Trace)
  (c : Client) (input : InvokeModelInput) (ans : result string) :
  number_printer FormatFloat ->
  In (EvInvokeModel c input ans)
     (events (Generate E FormatFloat m prompts options h)) ->
  exists ms,
    parse_json (Body input) = Some (JObject ms)
    /\ NoDup (map fst ms)
    /\ map fst ms
       = filter (fun k => existsb (String.eqb k) (map fst ms)) declared_names
    /\ (2 <= List.length ms <= 6)%nat.
Proof.
  intros Hff Hin.
  apply Generate_dispatch in Hin. destruct Hin as (p & ps & _ & Hm).
  rewrite (parse_json_marshal FormatFloat Hff _ _ Hm).
  eexists. split; [reflexivity|].
  unfold encoded_fields, Request_fields, denote_field, declared_names.
  cbn [filter omitEmpty value isEmptyValue andb negb].
  destruct (PrimFloat.eqb _ 0%float); destruct (PrimFloat.eqb _ 0%float);
    destruct (_ =? 0); destruct (StopSequences _) as [|s0 ss];
    cbn [List.length Nat.eqb negb map name fst];
    change (coerce_utf8 "prompt") with "prompt";
    change (coerce_utf8 "max_tokens_to_sample") with "max_tokens_to_sample";
    change (coerce_utf8 "temperature") with "temperature";
    change (coerce_utf8 "top_p") with "top_p";
    change (coerce_utf8 "top_k") with "top_k";
    change (coerce_utf8 "stop_sequences") with "stop_sequences";
    (split; [repeat constructor; cbn [In]; intuition discriminate|]);
    (split; [reflexivity|lia]).
Qed.

(** X12: the model built by [newLargeLanguageModel] has no handler, so its
    calls send no notification, and every request it sends goes through the
    client built from the loaded configuration, to the model
    [anthropic.claude-v2], as [application/json]. *)
Theorem main_model_requests (h0 : Trace) (large : Model)
  (prompts : list string) (options : list CallOption) (h : Trace)
  (c : Client) (input : InvokeModelInput) (ans : result string) :
  outcome (newLargeLanguageModel E h0) = Returned large ->
  In (EvInvokeModel c input ans)
     (events (Generate E FormatFloat large prompts options h)) ->
  ModelId input = "anthropic.claude-v2"
  /\ ContentType input = "application/json"
  /\ (exists cfg, config_LoadDefaultConfig E h0 = Ok cfg
                  /\ c = NewFromConfig cfg)
  /\ count is_start (events (Generate E FormatFloat large prompts options h))
     = 0%nat
  /\ count is_end (events (Generate E FormatFloat large prompts options h))
     = 0%nat.
Proof.
  rewrite newLargeLanguageModel_run. cbv zeta. unfold outcome at 1.
  destruct (config_LoadDefaultConfig E h0) as [cfg|err]; cbn [fst];
    [|discriminate].
  intros Hlarge. injection Hlarge as <-. intros Hin.
  rewrite Generate_run in *. cbv zeta in *.
  unfold start_events, end_events, invoke_input, outcome, events, count in *.
  cbn [CallbacksHandler bedrock m_modelID] in *.
  destruct prompts as [|p ps]; cbn [fst snd app] in *; [destruct Hin|].
  destruct (json_Marshal _ _) as [payload|merr]; cbn [fst snd app] in *;
    [|destruct Hin].
  destruct (bedrock_InvokeModel _ _ _ _) as [body|ierr]; cbn [fst snd app] in *;
    try destruct (json_Unmarshal _ _) as [resp [uerr|]];
    cbn [fst snd app] in *; pick_event;
    (split; [reflexivity|]); (split; [reflexivity|]);
    (split; [exists cfg; split; reflexivity|]); split; reflexivity.
Qed.

End MorePayload.

(** ** The fetcher and the orchestrator *)


Section MoreFetcher.

Variable E : Env.

(** X13: every call of the fetcher announces the link on standard output and
    then performs exactly one HTTP GET, for that link. *)
Theorem fetch_one_request (link : string) (h : Trace) :
  exists ans rest,
    events (getDocsFromLink E link h)
    = EvStdout (loading_line link) :: EvHttpGet link ans :: rest
    /\ ans = http_Get E (h ++ [EvStdout (loading_line link)])%list link
    /\ count is_get rest = 0%nat.
Proof.
  rewrite getDocsFromLink_run. cbv zeta. unfold events, count.
  destruct (http_Get E _ link) as [resp|err] eqn:Hget; cbn [snd].
  - destruct (html_Load E (resp_Body resp)); cbn [snd];
      do 2 eexists; (split; [reflexivity|]); split; reflexivity.
  - do 2 eexists; (split; [reflexivity|]); split; reflexivity.
Qed.

(** X14: the line of success is printed, and the body of the response closed,
    exactly when the fetcher returns documents; the close is then the last
    thing it does, after the HTML loader has run. *)
Theorem fetch_closes_on_success (link : string) (h : Trace) :
  let r := getDocsFromLink E link h in
  stdout (events r)
  = (if succeeded (outcome r)
     then [loading_line link; loaded_line link]
     else [loading_line link])
  /\ count is_close (events r)
     = (if succeeded (outcome r) then 1%nat else 0%nat)
  /\ (succeeded (outcome r) = true ->
      exists pre, events r = (pre ++ [EvBodyClose])%list
                  /\ count is_load pre = 1%nat).
Proof.
  intros r. subst r. rewrite getDocsFromLink_run. cbv zeta.
  unfold events, outcome, count.
  destruct (http_Get E _ link) as [resp|err]; cbn [fst snd].
  - destruct (html_Load E (resp_Body resp)) as [docs|err]; cbn [fst snd];
      (split; [reflexivity|]); (split; [reflexivity|]);
      cbn [succeeded]; intros Hs; try discriminate Hs.
    eexists [_; _; _; _]. split; reflexivity.
  - (split; [reflexivity|]); (split; [reflexivity|]);
      cbn [succeeded]; intros Hs; discriminate Hs.
Qed.

(** X15: when the HTTP request fails, the fetcher returns that error at once:
    the HTML loader is not run, nothing is closed, and only the
    announcement has been printed. *)
Theorem fetch_network_failure_stops (link link' : string) (h : Trace)
  (err : error) :
  In (EvHttpGet link' (Err err)) (events (getDocsFromLink E link h)) ->
  outcome (getDocsFromLink E link h) = Returned (Err err)
  /\ events (getDocsFromLink E link h)
     = [EvStdout (loading_line link); EvHttpGet link (Err err)].
Proof.
  rewrite getDocsFromLink_run. cbv zeta. unfold events, outcome.
  destruct (http_Get E _ link) as [resp|gerr]; cbn [fst snd].
  - destruct (html_Load E (resp_Body resp)) as [docs|lerr];
      cbn [fst snd]; simpl; intros Hin;
      repeat match goal with
        | H : False |- _ => destruct H
        | H : _ \/ _ |- _ => destruct H
        | H : _ = EvHttpGet _ _ |- _ =>
            try discriminate H; injection H as ? ?
        end; discriminate.
  - simpl. intros [Hin|[Hin|[]]]; try discriminate Hin.
    injection Hin as _ ->. split; reflexivity.
Qed.

(** X16: [loadData] never hands an error to its caller and never panics: it
    either returns the documents the HTML loader produced, or ends the
    process with status 1 after logging the error. *)
Theorem loadData_returns_or_exits (link : string) (h : Trace) :
  match outcome (loadData E link h) with
  | Returned docs =>
      exists body, In (EvHTMLLoad body (Ok docs)) (events (loadData E link h))
  | Exited code =>
      code = 1
      /\ exists err,
           last (events (loadData E link h)) EvBodyClose = EvLogFatal err
  | Panicked _ => False
  end.
Proof.
  rewrite loadData_run, getDocsFromLink_run. cbv zeta.
  unfold events, outcome.
  destruct (http_Get E _ link) as [resp|gerr]; cbn [fst snd].
  - destruct (html_Load E (resp_Body resp)) as [docs|lerr]; cbn [fst snd].
    + exists (resp_Body resp). simpl. auto.
    + split; [reflexivity|]. exists lerr. reflexivity.
  - split; [reflexivity|]. exists gerr. reflexivity.
Qed.

End MoreFetcher.

Section MoreMain.

Variable E : Env.

Variable chain :
  Model -> list Document -> string -> list CallOption ->
  M (result (list (string * any))).






(** X20: when the configuration cannot be loaded, [main] ends the process
    with status 1 at once: nothing is fetched and nothing is printed. *)
Theorem main_config_failure (err : error) (h : Trace) :
  config_LoadDefaultConfig E h = Err err ->
  main E chain h
  = (Exited 1, [EvLoadDefaultConfig (Err err); EvLogFatal err]).
Proof.
  intros Hcfg. unfold main. unfold bind at 1.
  rewrite newLargeLanguageModel_run. cbv zeta. rewrite Hcfg. reflexivity.
Qed.

End MoreMain.

(** ** Concrete runs for the further properties *)

Lemma Generate_endpoint_error_witness :
  outcome (Generate mock_env_throttled mock_FormatFloat (mock_model (Some 7%nat))
             ["X"] [] [])
  = Returned (Err "ThrottlingException")
  /\ count is_invoke
       (events (Generate mock_env_throttled mock_FormatFloat
                  (mock_model (Some 7%nat)) ["X"] [] [])) = 1%nat
  /\ count is_end
       (events (Generate mock_env_throttled mock_FormatFloat
                  (mock_model (Some 7%nat)) ["X"] [] [])) = 0%nat.
Proof.
  apply (Generate_endpoint_error mock_env_throttled mock_FormatFloat
           (mock_model (Some 7%nat)) ["X"] [] [] mock_client (mock_input "X")
           "ThrottlingException").
  right. left. reflexivity.
Defined.

Lemma Generate_malformed_body_witness :
  (exists err,
      outcome (Generate (mock_env_answering not_json_body) mock_FormatFloat
                 (mock_model None) ["X"] [] [])
      = Returned (Err err))
  /\ count is_end
       (events (Generate (mock_env_answering not_json_body) mock_FormatFloat
                  (mock_model None) ["X"] [] [])) = 0%nat.
Proof.
  apply (Generate_malformed_body (mock_env_answering not_json_body)
           mock_FormatFloat (mock_model None) ["X"] [] [] mock_client
           (mock_input "X") not_json_body).
  - left. reflexivity.
  - vm_compute. exact I.
Defined.


Lemma Generate_completion_not_string_witness :
  exists err,
    outcome (Generate (mock_env_answering number_body) mock_FormatFloat
               (mock_model None) ["X"] [] [])
    = Returned (Err err).
Proof.
  apply (Generate_completion_not_string (mock_env_answering number_body)
           mock_FormatFloat (mock_model None) ["X"] [] [] mock_client
           (mock_input "X") number_body [("completion", JNumber "5")]
           "completion" (JNumber "5")).
  - left. reflexivity.
  - vm_compute. reflexivity.
  - left. reflexivity.
  - reflexivity.
  - reflexivity.
Defined.

Lemma Generate_completion_round_trip_witness :
  ValidString tricky_text = true
  /\ outcome (Generate (mock_env_answering (completion_body tricky_text))
                mock_FormatFloat (mock_model None) ["X"] [] [])
     = Returned (Ok [ {| Text := tricky_text |} ]).
Proof.
  split; [reflexivity|].
  apply (Generate_completion_round_trip
           (mock_env_answering (completion_body tricky_text))
           mock_FormatFloat (mock_model None) ["X"] [] [] mock_client
           (mock_input "X") tricky_text).
  - reflexivity.
  - left. reflexivity.
Defined.

Lemma Generate_first_prompt_only_witness :
  dispatched (events (Generate mock_env mock_FormatFloat (mock_model (Some 7%nat))
                        ["X"; "Y"] [] []))
  = dispatched (events (Generate mock_env mock_FormatFloat
                          (mock_model (Some 7%nat)) ["X"] [] []))
  /\ outcome (Generate mock_env mock_FormatFloat (mock_model (Some 7%nat))
                ["X"; "Y"] [] [])
     = outcome (Generate mock_env mock_FormatFloat (mock_model (Some 7%nat))
                  ["X"] [] []).
Proof.
  apply (Generate_first_prompt_only mock_env mock_FormatFloat
           (mock_model (Some 7%nat)) "X" ["Y"] [] []).
  intros t1 t2 c i. reflexivity.
Defined.

Lemma Generate_refuses_non_finite_witness :
  (exists err,
      outcome (Generate mock_env mock_FormatFloat (mock_model None) ["X"]
                 [WithTemperature PrimFloat.nan] [])
      = Returned (Err err))
  /\ count is_invoke
       (events (Generate mock_env mock_FormatFloat (mock_model None) ["X"]
                  [WithTemperature PrimFloat.nan] [])) = 0%nat
  /\ count is_end
       (events (Generate mock_env mock_FormatFloat (mock_model None) ["X"]
                  [WithTemperature PrimFloat.nan] [])) = 0%nat.
Proof.
  apply (Generate_refuses_non_finite mock_env mock_FormatFloat
           (mock_model None) "X" [] [WithTemperature PrimFloat.nan] []).
  vm_compute. reflexivity.
Defined.

Lemma Generate_dispatches_once_witness :
  count is_invoke
    (events (Generate mock_env mock_FormatFloat (mock_model None) ["X"]
               main_options_top_k_0 []))
  = 1%nat.
Proof.
  apply (Generate_dispatches_once mock_env mock_FormatFloat (mock_model None)
           "X" [] main_options_top_k_0 []).
  vm_compute. reflexivity.
Defined.

Lemma Generate_payload_well_formed_witness :
  exists ms,
    parse_json (Body options_input) = Some (JObject ms)
    /\ NoDup (map fst ms)
    /\ map fst ms
       = filter (fun k => existsb (String.eqb k) (map fst ms)) declared_names
    /\ (2 <= List.length ms <= 6)%nat.
Proof.
  apply (Generate_payload_well_formed mock_env mock_FormatFloat
           (mock_model None) ["X"] main_options_top_k_0 [] mock_client
           options_input (Ok hello_body)).
  - exact mock_FormatFloat_number.
  - left. reflexivity.
Defined.

Lemma main_model_requests_witness :
  ModelId (mock_input "X") = "anthropic.claude-v2"
  /\ ContentType (mock_input "X") = "application/json"
  /\ (exists cfg, config_LoadDefaultConfig mock_env [] = Ok cfg
                  /\ mock_client = NewFromConfig cfg)
  /\ count is_start
       (events (Generate mock_env mock_FormatFloat (mock_model None) ["X"] []
                  [])) = 0%nat
  /\ count is_end
       (events (Generate mock_env mock_FormatFloat (mock_model None) ["X"] []
                  [])) = 0%nat.
Proof.
  apply (main_model_requests mock_env mock_FormatFloat [] (mock_model None)
           ["X"] [] [] mock_client (mock_input "X") (Ok hello_body)).
  - reflexivity.
  - left. reflexivity.
Defined.

Lemma fetch_network_failure_stops_witness :
  outcome (getDocsFromLink mock_env_no_network article_link [])
  = Returned (Err "dial tcp: no such host")
  /\ events (getDocsFromLink mock_env_no_network article_link [])
     = [EvStdout (loading_line article_link);
        EvHttpGet article_link (Err "dial tcp: no such host")].
Proof.
  apply (fetch_network_failure_stops mock_env_no_network article_link
           article_link [] "dial tcp: no such host").
  right. left. reflexivity.
Defined.




Lemma main_config_failure_witness :
  main mock_env_no_config summary_chain []
  = (Exited 1, [EvLoadDefaultConfig (Err "no credentials");
                EvLogFatal "no credentials"]).
Proof.
  apply (main_config_failure mock_env_no_config summary_chain
           "no credentials" []).
  reflexivity.
Defined.
